(** * AIS payload decoding (Kismet AIS PHY)

    A shallow embedding of [ais_message_parser.cc] (namespace [AISParser])
    and of the identity handling of [phy_ais.cc], followed by the
    properties of the decode pipeline that were checked against it.

    Conventions.
    - [size_t] values are [N]; sums and products of [size_t] wrap modulo
      2^64 ([Cxx.size_add], [Cxx.size_mul]).
    - [uint64_t], [int64_t], [uint32_t] and [int] values are [Z]; every
      conversion and every wrap-around is written out.
    - [std::vector<bool>] is [list bool], [std::string] is [string]
      (a [list ascii] while it is being built and trimmed).
    - [nlohmann::json] objects are [gmap string json].
    - An operation whose behaviour C++ leaves undefined inside the guarded
      range of its arguments returns [None]. *)

From Stdlib Require Import ZArith NArith Lia List Ascii String Bool.
From stdpp Require Import base option list strings gmap.

Local Open Scope Z_scope.

(** ** Machine arithmetic *)

Module Cxx.

Definition U64_MOD : Z := 18446744073709551616.
Definition U32_MOD : Z := 4294967296.
Definition SIZE_MOD : N := 18446744073709551616%N.

(** Conversion to [uint64_t]. *)
Definition to_uint64 (z : Z) : Z := z mod U64_MOD.

(** Conversion to [uint32_t]. *)
Definition to_uint32 (z : Z) : Z := z mod U32_MOD.

(** Conversion to [uint8_t]. *)
Definition to_uint8 (z : Z) : Z := z mod 256.

(** Conversion to [int64_t] (two's complement). *)
Definition to_int64 (z : Z) : Z :=
  let w := to_uint64 z in
  if w <? 9223372036854775808 then w else w - U64_MOD.

(** Conversion to [int] (32 bits, two's complement). *)
Definition to_int (z : Z) : Z :=
  let w := to_uint32 z in
  if w <? 2147483648 then w else w - U32_MOD.

(** [size_t] addition and multiplication. *)
Definition size_add (a b : N) : N := ((a + b) mod SIZE_MOD)%N.
Definition size_mul (a b : N) : N := ((a * b) mod SIZE_MOD)%N.

(** [x << n] on [unsigned long long]: defined only for [n < 64]. *)
Definition shl_ull (x : Z) (n : N) : option Z :=
  if (n <? 64)%N then Some (to_uint64 (Z.shiftl x (Z.of_N n))) else None.

(** Integer to [bool] conversion. *)
Definition int_to_bool (z : Z) : bool := negb (z =? 0).

(** [std::vector<bool>::operator[]]: unchecked.  Inside the extractors an
    index past the end can only be produced when [start_bit + num_bits]
    wraps around 2^64; statements about reads at variable positions
    exclude that case by hypothesis. *)
Definition vec_at (v : list bool) (i : N) : bool := nth (N.to_nat i) v false.

(** [std::vector<bool>::size]. *)
Definition vec_size (v : list bool) : N := N.of_nat (length v).

(** [std::vector<bool>::pop_back]. *)
Definition pop_back (v : list bool) : list bool := removelast v.

End Cxx.

(** ** Decimal formatting and parsing (fmt, std::stoul, std::stoi) *)

Module Fmt.

Definition digit_char (d : Z) : ascii := ascii_of_N (Z.to_N (48 + d)).

(** Decimal digits of a non-negative integer, most significant first.
    Twenty rounds cover every [uint64_t]. *)
Fixpoint dec_digits (fuel : nat) (v : Z) (acc : list ascii) : list ascii :=
  match fuel with
  | O => acc
  | S f =>
      let acc' := digit_char (v mod 10) :: acc in
      if v <? 10 then acc' else dec_digits f (v / 10) acc'
  end.

Definition to_decimal (v : Z) : list ascii := dec_digits 20 v [].

(** The presentation [{:0W}] of an unsigned integer: decimal digits,
    padded on the left with ['0'] up to a minimum width of [W]. *)
Definition zero_pad (width : nat) (v : Z) : string :=
  let d := to_decimal v in
  string_of_list_ascii (repeat "0"%char (width - length d) ++ d).

Definition is_digit (c : ascii) : bool :=
  let n := N_of_ascii c in ((48 <=? n) && (n <=? 57))%N.

Definition digit_val (c : ascii) : Z := Z.of_N (N_of_ascii c) - 48.

(** [isspace] in the "C" locale. *)
Definition isspace (c : ascii) : bool :=
  let n := N_of_ascii c in ((n =? 32) || ((9 <=? n) && (n <=? 13)))%N.

Fixpoint skip_space (s : list ascii) : list ascii :=
  match s with
  | c :: t => if isspace c then skip_space t else s
  | [] => []
  end.

(** Value of the longest prefix of decimal digits, with the number of
    digits consumed. *)
Fixpoint read_digits (s : list ascii) (acc : Z) (n : nat) : Z * nat :=
  match s with
  | c :: t => if is_digit c then read_digits t (10 * acc + digit_val c) (S n)
              else (acc, n)
  | [] => (acc, n)
  end.

(** Sign and magnitude read by [strtol]/[strtoul] in base 10;
    [None] when no digit is found ([std::invalid_argument]). *)
Definition read_number (s : string) : option (bool * Z) :=
  let l := skip_space (list_ascii_of_string s) in
  let '(neg, l) :=
    match l with
    | c :: t => if Ascii.eqb c "-" then (true, t)
                else if Ascii.eqb c "+" then (false, t) else (false, l)
    | [] => (false, l)
    end in
  match read_digits l 0 O with
  | (_, O) => None
  | (v, S _) => Some (neg, v)
  end.

(** [std::stoul] with a 64-bit [unsigned long]; [None] stands for the two
    exceptions [std::invalid_argument] and [std::out_of_range]. *)
Definition stoul (s : string) : option Z :=
  match read_number s with
  | None => None
  | Some (neg, v) =>
      if v <? Cxx.U64_MOD
      then Some (if neg then Cxx.to_uint64 (- v) else v)
      else None
  end.

(** [std::stoi]; [None] stands for the same two exceptions. *)
Definition stoi (s : string) : option Z :=
  match read_number s with
  | None => None
  | Some (neg, v) =>
      let r := if neg then - v else v in
      if (-2147483648 <=? r) && (r <=? 2147483647) then Some r else None
  end.

End Fmt.

(** ** JSON values *)

(** The kinds of [nlohmann::json] value the decoder stores.  A
    [number_float] keeps the exact quotient it was computed from. *)
Inductive json : Type :=
| JUnsigned (n : Z)
| JInteger (z : Z)
| JFloat (num den : Z)
| JString (s : string).

(** ** ais_message_parser.cc *)

Module AISParser.

Import Cxx.

Record AISMessage : Type := mkAISMessage {
  payload_bits : list bool;
  message_type : Z
}.

(** The value computed for one payload character in the constructor:
    [val -= 48; if (val > 40) val -= 8].  The range test that follows it
    in the source has an empty body. *)
Definition armor_value (c : ascii) : Z :=
  let val := Z.of_N (N_of_ascii c) in
  let val := val - 48 in
  if 40 <? val then val - 8 else val.

(** [for (int i = 5; i >= 0; --i) payload_bits.push_back((val >> i) & 1)],
    entered with [cnt = i + 1]. *)
Fixpoint push_bits (val : Z) (cnt : nat) (bits : list bool) : list bool :=
  match cnt with
  | O => bits
  | S i =>
      push_bits val i
        (bits ++ [int_to_bool (Z.land (Z.shiftr val (Z.of_nat i)) 1)])
  end.

Definition append_payload (encoded_payload : string) (bits : list bool)
  : list bool :=
  fold_left (fun acc c => push_bits (armor_value c) 6 acc)
            (list_ascii_of_string encoded_payload) bits.

Definition trim_fill (num_fill_bits : Z) (bits : list bool) : list bool :=
  if (0 <? num_fill_bits) && (num_fill_bits <? 6)
     && (Z.to_N num_fill_bits <=? vec_size bits)%N
  then Nat.iter (Z.to_nat num_fill_bits) pop_back bits
  else bits.

(** The loop of [get_uint]; [i] is the loop counter, [cnt] the number of
    rounds left. *)
Fixpoint get_uint_loop (bits : list bool) (start_bit i : N) (cnt : nat)
         (val : Z) : Z :=
  match cnt with
  | O => val
  | S c =>
      let val := to_uint64 (Z.shiftl val 1) in
      let val := if vec_at bits (size_add start_bit i)
                 then Z.lor val 1 else val in
      get_uint_loop bits start_bit (i + 1)%N c val
  end.

Definition out_of_bounds (bits : list bool) (start_bit num_bits : N) : bool :=
  (vec_size bits <? size_add start_bit num_bits)%N || (64 <? num_bits)%N.

Definition get_uint (bits : list bool) (start_bit num_bits : N) : Z :=
  if out_of_bounds bits start_bit num_bits then 0
  else get_uint_loop bits start_bit 0 (N.to_nat num_bits) 0.

(** [None]: the shift [1ULL << num_bits] is undefined. *)
Definition get_int (bits : list bool) (start_bit num_bits : N) : option Z :=
  if out_of_bounds bits start_bit num_bits then Some 0
  else if (num_bits =? 0)%N then Some 0
  else
    let u_val := get_uint bits start_bit num_bits in
    hi ← shl_ull 1 (num_bits - 1);
    if (0 <? num_bits)%N && int_to_bool (Z.land u_val hi)
    then p ← shl_ull 1 num_bits;
         Some (to_int64 (to_uint64 (to_uint64 (to_int64 u_val) - p)))
    else Some (to_int64 u_val).

(** Character for one six-bit group. *)
Definition armor_char (char_val : Z) : ascii :=
  if char_val <? 32
  then ascii_of_N (Z.to_N ((char_val + 64) mod 256))
  else ascii_of_N (Z.to_N char_val).

Fixpoint get_string_loop (bits : list bool) (start_bit i : N) (cnt : nat)
         (s : list ascii) : list ascii :=
  match cnt with
  | O => s
  | S c =>
      let char_val :=
        to_uint8 (get_uint bits (size_add start_bit (size_mul i 6)) 6) in
      get_string_loop bits start_bit (i + 1)%N c (s ++ [armor_char char_val])
  end.

(** [std::string::find_last_not_of(c)]; [None] is [npos]. *)
Fixpoint find_last_not_of (s : list ascii) (c : ascii) : option nat :=
  match s with
  | [] => None
  | x :: t =>
      match find_last_not_of t c with
      | Some i => Some (S i)
      | None => if Ascii.eqb x c then None else Some O
      end
  end.

(** [s.erase(pos)]: keeps the first [pos] characters. *)
Definition erase (s : list ascii) (pos : nat) : list ascii := firstn pos s.

(** The two trimming steps at the end of [get_string]. *)
Definition trim_armored (s : list ascii) : list ascii :=
  let s :=
    match find_last_not_of s "@" with
    | Some last_char => erase s (last_char + 1)
    | None => []
    end in
  match find_last_not_of s " " with
  | Some last_char => erase s (last_char + 1)
  | None =>
      match s with
      | c :: _ => if Ascii.eqb c " " then [] else s
      | [] => s
      end
  end.

(** The characters of the field before trimming.  The loop reads group
    [i] at [start_bit + i * 6] in [size_t] arithmetic. *)
Definition get_string_raw (bits : list bool) (start_bit num_chars : N)
  : list ascii :=
  get_string_loop bits start_bit 0 (N.to_nat num_chars) [].

(** [AISMessage::get_string].  The guard is computed in [size_t]
    arithmetic.  When [start_bit + num_chars * 6] stays below 2^64 a call
    that passes the guard has [num_chars] at most a sixth of the buffer
    length, so [s.reserve(num_chars)] succeeds and every group is read
    inside the buffer; this is the range the definition describes, and a
    statement about a variable range carries that bound as a hypothesis. *)
Definition get_string (bits : list bool) (start_bit num_chars : N) : string :=
  if (vec_size bits <? size_add start_bit (size_mul num_chars 6))%N then ""
  else string_of_list_ascii (trim_armored (get_string_raw bits start_bit num_chars)).

(** [AISMessage::AISMessage]. *)
Definition AISMessage_ctor (encoded_payload : string) (num_fill_bits : Z)
  : AISMessage :=
  let bits := trim_fill num_fill_bits (append_payload encoded_payload []) in
  {| payload_bits := bits;
     message_type := if (6 <=? vec_size bits)%N
                     then to_int (get_uint bits 0 6)
                     else -1 |}.

Definition get_message_type (m : AISMessage) : Z := message_type m.

(** [AISMessage::decode_6bit_ascii]. *)
Definition decode_6bit_ascii (c : ascii) : Z :=
  let val := Z.of_N (N_of_ascii c) in
  if (val <? 48) || ((87 <? val) && (val <? 96)) || (119 <? val) then -1
  else
    let val := val - 48 in
    let val := if 40 <=? val then val - 8 else val in
    if (val <? 0) || (63 <? val) then -1 else val.

(** The two decoder classes derived from [AISMessage]. *)
Inductive decoder : Type := Type123 | Type5.

Definition unsigned_field (bits : list bool) (start_bit num_bits : N) : json :=
  JUnsigned (get_uint bits start_bit num_bits).

(** [AISMessageType123::parse]; [out_json] is updated in place. *)
Definition parse_123 (m : AISMessage) (out_json : gmap string json)
  : option (gmap string json) :=
  let b := payload_bits m in
  let out_json := <["message_type" := JInteger (message_type m)]> out_json in
  let out_json := <["repeat_indicator" := unsigned_field b 6 2]> out_json in
  let out_json := <["mmsi" := unsigned_field b 8 30]> out_json in
  let out_json := <["nav_status" := unsigned_field b 38 4]> out_json in
  rot ← get_int b 42 8;
  let out_json := <["rot" := JInteger rot]> out_json in
  let out_json := <["sog" := JFloat (get_uint b 50 10) 10]> out_json in
  let out_json := <["pos_accuracy" := unsigned_field b 60 1]> out_json in
  lon ← get_int b 61 28;
  lat ← get_int b 89 27;
  let out_json := <["lon" := JFloat lon 600000]> out_json in
  let out_json := <["lat" := JFloat lat 600000]> out_json in
  let out_json := <["cog" := JFloat (get_uint b 116 12) 10]> out_json in
  let out_json := <["true_heading" := unsigned_field b 128 9]> out_json in
  let out_json := <["timestamp" := unsigned_field b 137 6]> out_json in
  let out_json := <["maneuver_indicator" := unsigned_field b 143 2]> out_json in
  let out_json := <["raim_flag" := unsigned_field b 148 1]> out_json in
  let out_json := <["radio_status" := unsigned_field b 149 19]> out_json in
  Some out_json.

(** The test guarding the formatted ETA. *)
Definition eta_valid (eta_month eta_day eta_hour eta_minute : Z) : bool :=
  (1 <=? eta_month) && (eta_month <=? 12) &&
  (1 <=? eta_day) && (eta_day <=? 31) &&
  (eta_hour <=? 23) && (eta_minute <=? 59).

(** [fmt::format("{:02}-{:02} {:02}:{:02} UTC", ...)]. *)
Definition format_eta (eta_month eta_day eta_hour eta_minute : Z) : string :=
  Fmt.zero_pad 2 eta_month +:+ "-" +:+ Fmt.zero_pad 2 eta_day +:+ " " +:+
  Fmt.zero_pad 2 eta_hour +:+ ":" +:+ Fmt.zero_pad 2 eta_minute +:+ " UTC".

(** [AISMessageType5::parse]. *)
Definition parse_5 (m : AISMessage) (out_json : gmap string json)
  : option (gmap string json) :=
  let b := payload_bits m in
  let out_json := <["message_type" := JInteger (message_type m)]> out_json in
  let out_json := <["repeat_indicator" := unsigned_field b 6 2]> out_json in
  let out_json := <["mmsi" := unsigned_field b 8 30]> out_json in
  let out_json := <["ais_version" := unsigned_field b 38 2]> out_json in
  let out_json := <["imo_number" := unsigned_field b 40 30]> out_json in
  let out_json := <["callsign" := JString (get_string b 70 7)]> out_json in
  let out_json := <["vessel_name" := JString (get_string b 112 20)]> out_json in
  let out_json := <["ship_type" := unsigned_field b 232 8]> out_json in
  let out_json := <["dim_to_bow" := unsigned_field b 240 9]> out_json in
  let out_json := <["dim_to_stern" := unsigned_field b 249 9]> out_json in
  let out_json := <["dim_to_port" := unsigned_field b 258 6]> out_json in
  let out_json := <["dim_to_starboard" := unsigned_field b 264 6]> out_json in
  let out_json := <["epfd_fix_type" := unsigned_field b 270 4]> out_json in
  let eta_month := to_uint32 (get_uint b 274 4) in
  let eta_day := to_uint32 (get_uint b 278 5) in
  let eta_hour := to_uint32 (get_uint b 283 5) in
  let eta_minute := to_uint32 (get_uint b 288 6) in
  let out_json :=
    if eta_valid eta_month eta_day eta_hour eta_minute
    then <["eta_str" :=
             JString (format_eta eta_month eta_day eta_hour eta_minute)]> out_json
    else <["eta_str" := JString "N/A"]> out_json in
  let out_json := <["eta_month" := JUnsigned eta_month]> out_json in
  let out_json := <["eta_day" := JUnsigned eta_day]> out_json in
  let out_json := <["eta_hour" := JUnsigned eta_hour]> out_json in
  let out_json := <["eta_minute" := JUnsigned eta_minute]> out_json in
  let out_json := <["draught" := JFloat (get_uint b 294 8) 10]> out_json in
  let out_json := <["destination" := JString (get_string b 302 20)]> out_json in
  let out_json := <["dte" := unsigned_field b 422 1]> out_json in
  Some out_json.

(** The virtual call [ais_msg->parse(out_json)]. *)
Definition parse (d : decoder) (m : AISMessage) (out_json : gmap string json)
  : option (gmap string json) :=
  match d with
  | Type123 => parse_123 m out_json
  | Type5 => parse_5 m out_json
  end.

(** [create_ais_message]; [None] is the null pointer. *)
Definition create_ais_message (message_type : Z) (encoded_payload : string)
           (num_fill_bits : Z) : option (decoder * AISMessage) :=
  if (message_type =? 1) || (message_type =? 2) || (message_type =? 3)
  then Some (Type123, AISMessage_ctor encoded_payload num_fill_bits)
  else if message_type =? 5
  then Some (Type5, AISMessage_ctor encoded_payload num_fill_bits)
  else None.

End AISParser.

(** ** phy_ais.cc *)

Module PhyAis.

Import Cxx AISParser.

(** Modelled from the spec: the class [mac_addr] ([macaddr.h] is not part of
    the sources).  A MAC-48 is its six bytes; the default-constructed
    address is the zero address, which [is_zero] recognises. *)
Record mac_addr : Type := mkMac { mac_bytes : list Z }.

Definition mac_zero : mac_addr := mkMac [0; 0; 0; 0; 0; 0].

Definition is_zero (m : mac_addr) : bool :=
  forallb (fun b => b =? 0) (mac_bytes m).

(** [kis_ais_phy::mmsi_to_mac]. *)
Definition mmsi_to_mac (mmsi : string) : mac_addr :=
  if negb (String.length mmsi =? 9)%nat then mac_zero
  else
    match Fmt.stoul mmsi with
    | None => mac_zero
    | Some v =>
        let mmsi_val := to_uint32 v in
        mkMac [ 2; 65; 73;
                Z.land (Z.shiftr mmsi_val 16) 255;
                Z.land (Z.shiftr mmsi_val 8) 255;
                Z.land mmsi_val 255 ]
    end.

(** [std::all_of(s.begin(), s.end(), ::isdigit)]. *)
Definition all_digits (s : string) : bool :=
  forallb Fmt.is_digit (list_ascii_of_string s).

(** How a step of [process_ais_json] ends: it goes on with a value, the
    function returns [false], or an exception leaves the function
    (neither [process_ais_json] nor [packet_handler] has a handler). *)
Inductive flow (A : Type) : Type :=
| Continue (a : A)
| ReturnFalse
| Uncaught.
Arguments Continue {A} a.
Arguments ReturnFalse {A}.
Arguments Uncaught {A}.

(** The MMSI extraction of [process_ais_json]: the [is_number_unsigned]
    branch, then the [is_string] branch.  The first branch calls
    [fmt::format("{:09u}", mmsi_val)]; the format grammar of {fmt} has no
    presentation type [u], so the call throws [fmt::format_error] whatever
    the value is, and no string is produced. *)
Definition extract_mmsi (parsed_ais_fields : gmap string json) : flow string :=
  match parsed_ais_fields !! "mmsi" with
  | Some (JUnsigned n) => Uncaught
  | Some (JString mmsi_str) =>
      if negb (String.length mmsi_str =? 9)%nat || negb (all_digits mmsi_str)
      then ReturnFalse else Continue mmsi_str
  | _ => ReturnFalse
  end.

(** The identity of an observation in [process_ais_json]: the MMSI string
    and the MAC derived from it, when the function reaches the device
    tracker. *)
Definition observation_key (parsed_ais_fields : gmap string json)
  : flow (string * mac_addr) :=
  match extract_mmsi parsed_ais_fields with
  | Continue mmsi_str =>
      let ais_mac := mmsi_to_mac mmsi_str in
      if is_zero ais_mac then ReturnFalse else Continue (mmsi_str, ais_mac)
  | ReturnFalse => ReturnFalse
  | Uncaught => Uncaught
  end.

(** [fields[i]] on a vector known to hold more than [i] elements. *)
Definition field (fields : list string) (i : nat) : string :=
  nth i fields "".

(** The fill-bit count read from the seventh field. *)
Definition fill_bits_of (fields : list string) : option Z :=
  if (6 <? length fields)%nat && negb (String.eqb (field fields 6) "")
  then
    match list_ascii_of_string (field fields 6) with
    | [c] => if ((48 <=? N_of_ascii c) && (N_of_ascii c <=? 53))%N
             then Fmt.stoi (field fields 6) else Some 0
    | _ => Some 0
    end
  else Some 0.

(** The result of [parse_aivdm]: the boolean returned and the state of
    [parsed_ais_data] on return. *)
Definition result : Type := bool * gmap string json.

(** [parse_aivdm] from the field count check on, given the fields split
    out of the sentence.  The outer [None] is undefined behaviour inside
    a decoder; a caught exception gives [false]. *)
Definition parse_aivdm_fields (fields : list string)
           (parsed_ais_data : gmap string json) : option result :=
  if (length fields <? 6)%nat || (7 <? length fields)%nat
  then Some (false, parsed_ais_data)
  else
    let parsed_ais_data :=
      <["nmea_talker_id_type" := JString (field fields 0)]> parsed_ais_data in
    if negb (String.eqb (field fields 0) "AIVDM")
       && negb (String.eqb (field fields 0) "AIVDO")
    then Some (false, parsed_ais_data)
    else
      match Fmt.stoi (field fields 1) with
      | None => Some (false, parsed_ais_data)
      | Some fragment_count =>
      match Fmt.stoi (field fields 2) with
      | None => Some (false, parsed_ais_data)
      | Some fragment_number =>
        let parsed_ais_data :=
          <["fragment_count" := JInteger fragment_count]> parsed_ais_data in
        let parsed_ais_data :=
          <["fragment_number" := JInteger fragment_number]> parsed_ais_data in
        let parsed_ais_data :=
          if negb (String.eqb (field fields 3) "")
          then <["message_id" := JString (field fields 3)]> parsed_ais_data
          else parsed_ais_data in
        let parsed_ais_data :=
          <["channel" := JString (field fields 4)]> parsed_ais_data in
        let encoded_payload := field fields 5 in
        match fill_bits_of fields with
        | None => Some (false, parsed_ais_data)
        | Some num_fill_bits =>
          if (1 <? fragment_count) && negb (fragment_number =? 1)
          then Some (false, parsed_ais_data)
          else
            match list_ascii_of_string encoded_payload with
            | [] => Some (false, parsed_ais_data)
            | c0 :: _ =>
              let first_char_val := decode_6bit_ascii c0 in
              if first_char_val <? 0 then Some (false, parsed_ais_data)
              else
                let message_type := first_char_val in
                if (message_type <=? 0) || (63 <? message_type)
                then Some (false, parsed_ais_data)
                else
                  match create_ais_message message_type encoded_payload
                                           num_fill_bits with
                  | None => Some (false, parsed_ais_data)
                  | Some (d, ais_msg) =>
                      parsed_ais_data ← parse d ais_msg parsed_ais_data;
                      let parsed_ais_data :=
                        <["raw_nmea_payload" := JString encoded_payload]>
                          parsed_ais_data in
                      let parsed_ais_data :=
                        <["num_fill_bits" := JInteger num_fill_bits]>
                          parsed_ais_data in
                      Some (true, parsed_ais_data)
                  end
            end
        end
      end
      end.

(** [std::string::rfind(c)]; [None] is [npos]. *)
Fixpoint rfind (s : list ascii) (c : ascii) : option nat :=
  match s with
  | [] => None
  | x :: t =>
      match rfind t c with
      | Some i => Some (S i)
      | None => if Ascii.eqb x c then Some O else None
      end
  end.

Section Sentence.

(** The two helpers of [parse_aivdm] that live outside these sources. *)
Variable kis_checksum_nmea_valid : string → bool.
Variable split_string : string → ascii → list string.

(** [kis_ais_phy::parse_aivdm]. *)
Definition parse_aivdm (aivdm_sentence : string)
           (parsed_ais_data : gmap string json) : option result :=
  let l := list_ascii_of_string aivdm_sentence in
  match l with
  | [] => Some (false, parsed_ais_data)
  | c :: _ =>
      if negb (Ascii.eqb c "!") then Some (false, parsed_ais_data)
      else if negb (kis_checksum_nmea_valid aivdm_sentence)
      then Some (false, parsed_ais_data)
      else
        match rfind l "*" with
        | None => Some (false, parsed_ais_data)
        | Some end_marker =>
            if (end_marker <=? 1)%nat then Some (false, parsed_ais_data)
            else
              let content :=
                string_of_list_ascii (firstn (end_marker - 1) (skipn 1 l)) in
              parse_aivdm_fields (split_string content ",") parsed_ais_data
        end
  end.

End Sentence.

End PhyAis.

(** ** Reference definitions used to state the properties *)

Module Ref.

Import AISParser.

(** One round of the loop of [get_uint] on a value that still fits. *)
Definition step (acc : Z) (b : bool) : Z := 2 * acc + (if b then 1 else 0).

(** The integer a bit sequence denotes when read most significant bit
    first. *)
Definition msb_value (bs : list bool) : Z := fold_left step bs 0.

(** The armor character of a six-bit value: the inverse of the mapping
    of valid characters, code 48..87 for 0..39 and 96..119 for 40..63. *)
Definition armor_of_value (v : Z) : ascii :=
  ascii_of_N (Z.to_N (if v <? 40 then v + 48 else v + 56)).

(** Six-bit ASCII armor of a bit sequence; a tail of fewer than six bits
    is not encoded. *)
Fixpoint armor_encode (bs : list bool) : list ascii :=
  match bs with
  | b5 :: b4 :: b3 :: b2 :: b1 :: b0 :: rest =>
      armor_of_value (msb_value [b5; b4; b3; b2; b1; b0]) :: armor_encode rest
  | _ => []
  end.

(** The six bits one character appends, most significant first. *)
Definition char_bits (c : ascii) : list bool :=
  let v := armor_value c in
  [Z.testbit v 5; Z.testbit v 4; Z.testbit v 3;
   Z.testbit v 2; Z.testbit v 1; Z.testbit v 0].

(** One more decimal digit. *)
Definition dstep (acc : Z) (c : ascii) : Z := 10 * acc + Fmt.digit_val c.

(** Numeric value of a string of decimal digits. *)
Definition decimal_value (s : string) : Z :=
  fold_left dstep (list_ascii_of_string s) 0.

(** Two decimal digits: tens, then units. *)
Definition two_digits (v : Z) : string :=
  String (Fmt.digit_char (v / 10)) (String (Fmt.digit_char (v mod 10)) "").

Definition ends_with (c : ascii) (s : list ascii) : Prop := last s = Some c.

(** One trimming step: cut after the last character different from [c]. *)
Definition strip (c : ascii) (s : list ascii) : list ascii :=
  match find_last_not_of s c with
  | Some last_char => erase s (last_char + 1)
  | None => []
  end.

End Ref.

(** ** Sample sentences *)

Module Samples.

Import PhyAis.

(** A sentence from the field: a class A position report of MMSI
    205344990. *)
Definition sample_fields : list string :=
  ["AIVDM"; "1"; "1"; ""; "A"; "133m@ogP00PD;88MD5MTDww@2D7k"; "0"].

Definition sample_record : gmap string json :=
  default ∅ (snd <$> parse_aivdm_fields sample_fields ∅).

(** A one-character payload: six bits, type 1. *)
Definition short_fields : list string :=
  ["AIVDM"; "1"; "1"; ""; "A"; "1"; "0"].

Definition short_record : gmap string json :=
  default ∅ (snd <$> parse_aivdm_fields short_fields ∅).

End Samples.

(** ** kis_mutex.h *)

(** The lock wrappers, seen from the one thread that uses them.  The
    state of the [std::recursive_timed_mutex] is the number of ownership
    levels the calling thread holds.  Whether [try_lock_for] obtains the
    mutex within the timeout depends on the other threads and on time; it
    is an input ([acquired]) of every operation that calls it.  Unlocking
    a mutex the thread does not own is undefined. *)
Module KisMutex.

Definition mutex : Type := nat.

(** [mutex.try_lock_for(timeout)]. *)
Definition try_lock_for (acquired : bool) (m : mutex) : bool * mutex :=
  if acquired then (true, S m) else (false, m).

(** [mutex.unlock()]; [None] is undefined behaviour. *)
Definition mutex_unlock (m : mutex) : option mutex :=
  match m with
  | O => None
  | S k => Some k
  end.

(** The result of a constructor: the object and the mutex, or the
    [std::runtime_error] thrown (no object) and the mutex. *)
Inductive constructed (A : Type) : Type :=
| Built (a : A) (m : mutex)
| Failed (m : mutex).
Arguments Built {A} a m.
Arguments Failed {A} m.

(** The result of a member function: normal return, an exception (the
    object and the mutex as they are at the throw), or undefined
    behaviour. *)
Inductive outcome (A R : Type) : Type :=
| Return (r : R) (a : A) (m : mutex)
| Throw (a : A) (m : mutex)
| Undefined.
Arguments Return {A R} r a m.
Arguments Throw {A R} a m.
Arguments Undefined {A R}.

(** [kis_lock_guard]. *)
Record kis_lock_guard : Type := mkGuard { retain : bool }.

(** [kis_lock_guard(M& m, const std::string& op)]. *)
Definition kis_lock_guard_ctor (acquired : bool) (m : mutex)
  : constructed kis_lock_guard :=
  let '(r, m) := try_lock_for acquired m in
  if negb r then Failed m else Built (mkGuard false) m.

(** [kis_lock_guard(M& m, std::adopt_lock_t, op)]. *)
Definition kis_lock_guard_adopt (m : mutex) : constructed kis_lock_guard :=
  Built (mkGuard false) m.

(** [kis_lock_guard(M& m, kismet::retain_lock_t, op)]. *)
Definition kis_lock_guard_retain (acquired : bool) (m : mutex)
  : constructed kis_lock_guard :=
  let '(r, m) := try_lock_for acquired m in
  if negb r then Failed m else Built (mkGuard true) m.

(** [~kis_lock_guard()]. *)
Definition kis_lock_guard_dtor (g : kis_lock_guard) (m : mutex) : option mutex :=
  if negb (retain g) then mutex_unlock m else Some m.

(** [kis_unique_lock]. *)
Record kis_unique_lock : Type := mkUnique { locked : bool }.

(** [kis_unique_lock(M& m, const std::string& op)]: [locked] keeps its
    default member initializer, [false]. *)
Definition kis_unique_lock_ctor (acquired : bool) (m : mutex)
  : constructed kis_unique_lock :=
  let '(r, m) := try_lock_for acquired m in
  if negb r then Failed m else Built (mkUnique false) m.

(** [kis_unique_lock(M& m, std::defer_lock_t, op)]. *)
Definition kis_unique_lock_defer (m : mutex) : constructed kis_unique_lock :=
  Built (mkUnique false) m.

(** [kis_unique_lock(M& m, std::adopt_lock_t, op)]. *)
Definition kis_unique_lock_adopt (m : mutex) : constructed kis_unique_lock :=
  Built (mkUnique true) m.

(** [~kis_unique_lock()]. *)
Definition kis_unique_lock_dtor (u : kis_unique_lock) (m : mutex) : option mutex :=
  if locked u then mutex_unlock m else Some m.

(** [kis_unique_lock::lock]. *)
Definition lock (acquired : bool) (u : kis_unique_lock) (m : mutex)
  : outcome kis_unique_lock unit :=
  if locked u then Throw u m
  else
    let u := mkUnique true in
    let '(r, m) := try_lock_for acquired m in
    if negb r then Throw u m else Return tt u m.

(** [kis_unique_lock::try_lock]. *)
Definition try_lock (acquired : bool) (u : kis_unique_lock) (m : mutex)
  : outcome kis_unique_lock bool :=
  if locked u then Throw u m
  else
    let '(r, m) := try_lock_for acquired m in
    Return r (mkUnique r) m.

(** [kis_unique_lock::unlock]. *)
Definition unlock (u : kis_unique_lock) (m : mutex)
  : outcome kis_unique_lock unit :=
  if negb (locked u) then Throw u m
  else
    match mutex_unlock m with
    | None => Undefined
    | Some m => Return tt (mkUnique false) m
    end.

End KisMutex.

(** ** phy_ais.cc: frequency of an observation *)

Module Tracker.

Import Cxx.

Section Frequency.

(** [static_cast<unsigned int>] of the [double] a [number_float] holds,
    given by numerator and denominator; floating point is left
    abstract. *)
Variable double_to_unsigned : Z → Z → Z.


End Frequency.

End Tracker.

(** ** Shapes of record fields *)

Module Schema.

Import PhyAis.

(** The key holds an unsigned number below [bound]. *)
Definition has_unsigned (j : gmap string json) (key : string) (bound : Z) : Prop :=
  ∃ v, j !! key = Some (JUnsigned v) ∧ 0 <= v < bound.

(** The key holds a signed number from [lo] up to, not including, [hi]. *)
Definition has_integer (j : gmap string json) (key : string) (lo hi : Z) : Prop :=
  ∃ v, j !! key = Some (JInteger v) ∧ lo <= v < hi.

(** The key holds the quotient by [den] of an integer from [lo] up to, not
    including, [hi]. *)
Definition has_quotient (j : gmap string json) (key : string) (den lo hi : Z)
  : Prop :=
  ∃ v, j !! key = Some (JFloat v den) ∧ lo <= v < hi.

(** The key holds a string of at most [n] characters. *)
Definition has_string (j : gmap string json) (key : string) (n : nat) : Prop :=
  ∃ s, j !! key = Some (JString s) ∧ (String.length s <= n)%nat.

(** How a decoder stores the bits it reads for a field. *)
Inductive field_kind : Type :=
| Unsigned
| Signed
| Quotient (den : Z)
| SignedQuotient (den : Z)
| Text.

(** What the record holds for a field whose read returned the default:
    0 from [get_uint] and [get_int], the empty string from [get_string]. *)
Definition default_value (kind : field_kind) : json :=
  match kind with
  | Unsigned => JUnsigned 0
  | Signed => JInteger 0
  | Quotient den => JFloat 0 den
  | SignedQuotient den => JFloat 0 den
  | Text => JString ""
  end.

(** The field reads of the two decoders, in source order: key, first bit,
    width in bits (six per character for a string), and kind. *)
Definition layout (d : AISParser.decoder) : list (string * N * N * field_kind) :=
  match d with
  | AISParser.Type123 =>
      [("repeat_indicator", 6, 2, Unsigned); ("mmsi", 8, 30, Unsigned);
       ("nav_status", 38, 4, Unsigned); ("rot", 42, 8, Signed);
       ("sog", 50, 10, Quotient 10); ("pos_accuracy", 60, 1, Unsigned);
       ("lon", 61, 28, SignedQuotient 600000);
       ("lat", 89, 27, SignedQuotient 600000);
       ("cog", 116, 12, Quotient 10); ("true_heading", 128, 9, Unsigned);
       ("timestamp", 137, 6, Unsigned);
       ("maneuver_indicator", 143, 2, Unsigned);
       ("raim_flag", 148, 1, Unsigned); ("radio_status", 149, 19, Unsigned)]%N
  | AISParser.Type5 =>
      [("repeat_indicator", 6, 2, Unsigned); ("mmsi", 8, 30, Unsigned);
       ("ais_version", 38, 2, Unsigned); ("imo_number", 40, 30, Unsigned);
       ("callsign", 70, 42, Text); ("vessel_name", 112, 120, Text);
       ("ship_type", 232, 8, Unsigned); ("dim_to_bow", 240, 9, Unsigned);
       ("dim_to_stern", 249, 9, Unsigned); ("dim_to_port", 258, 6, Unsigned);
       ("dim_to_starboard", 264, 6, Unsigned);
       ("epfd_fix_type", 270, 4, Unsigned); ("eta_month", 274, 4, Unsigned);
       ("eta_day", 278, 5, Unsigned); ("eta_hour", 283, 5, Unsigned);
       ("eta_minute", 288, 6, Unsigned); ("draught", 294, 8, Quotient 10);
       ("destination", 302, 120, Text); ("dte", 422, 1, Unsigned)]%N
  end.

(** The keys [parse_aivdm] writes before it decodes the payload. *)
Definition envelope_keys : list string :=
  ["nmea_talker_id_type"; "fragment_count"; "fragment_number"; "message_id";
   "channel"].

(** The envelope as [parse_aivdm] has written it when the decoder is
    called. *)
Definition envelope_of (fields : list string) (fragment_count fragment_number : Z)
           (j : gmap string json) : gmap string json :=
  <["channel" := JString (field fields 4)]>
    ((if negb (String.eqb (field fields 3) "")
      then <["message_id" := JString (field fields 3)]>
      else id)
       (<["fragment_number" := JInteger fragment_number]>
          (<["fragment_count" := JInteger fragment_count]>
             (<["nmea_talker_id_type" := JString (field fields 0)]> j)))).

End Schema.

(** * Properties *)

Import Cxx AISParser PhyAis Ref Samples Schema Tracker.

(** Closed goals are settled by evaluation, one conjunct at a time. *)
Ltac by_evaluation :=
  repeat match goal with |- _ ∧ _ => split end;
  vm_compute; first [reflexivity | discriminate].

(** Lookup of a literal key through a chain of insertions. *)
Ltac lookup_chain :=
  repeat first [ rewrite lookup_insert_eq
               | rewrite lookup_insert_ne by discriminate ].

Ltac lookup_key := lookup_chain; reflexivity.

(** ** Bit extraction *)

Section Extractors.

Implicit Types (bits : list bool) (start_bit num_bits i : N) (val : Z).

Lemma lor_double_one v : 0 <= v → Z.lor (2 * v) 1 = 2 * v + 1.
Proof.
  intros Hv. destruct v as [|p|p]; [reflexivity|reflexivity|lia].
Qed.

Lemma msb_value_fold bs : msb_value bs = fold_left step bs 0.
Proof. reflexivity. Qed.

Lemma fold_step_split bs : ∀ acc,
  fold_left step bs acc = acc * 2 ^ Z.of_nat (length bs) + fold_left step bs 0.
Proof.
  induction bs as [|b bs IH]; intros acc; simpl.
  - lia.
  - rewrite (IH (step acc b)), (IH (step 0 b)).
    rewrite Nat2Z.inj_succ, Z.pow_succ_r by lia.
    unfold step. destruct b; lia.
Qed.

Lemma fold_step_bound bs : 0 <= fold_left step bs 0 < 2 ^ Z.of_nat (length bs).
Proof.
  induction bs as [|b bs IH] using rev_ind; simpl; [lia|].
  rewrite fold_left_app, length_app, Nat2Z.inj_add, Z.pow_add_r by lia.
  change (Z.of_nat (length [b])) with 1. change (2 ^ 1) with 2.
  cbn [fold_left]. set (v := fold_left step bs 0) in *. unfold step. destruct b; lia.
Qed.

Lemma size_add_small a b : (a + b < SIZE_MOD)%N → size_add a b = (a + b)%N.
Proof. intros H. unfold size_add. now apply N.mod_small. Qed.

Lemma to_uint64_small z : 0 <= z < U64_MOD → to_uint64 z = z.
Proof. intros H. unfold to_uint64. now apply Z.mod_small. Qed.

(** The loop never overflows while fewer than 64 bits have been read,
    and its value stays below the corresponding power of two. *)
Lemma get_uint_loop_bound bits start_bit : ∀ cnt i val k,
  0 <= val < 2 ^ k → 0 <= k → k + Z.of_nat cnt <= 64 →
  0 <= get_uint_loop bits start_bit i cnt val < 2 ^ (k + Z.of_nat cnt).
Proof.
  induction cnt as [|c IH]; intros i val k Hval Hk Hle; simpl get_uint_loop.
  - now rewrite Z.add_0_r.
  - assert (Hp : 2 ^ (k + 1) <= 2 ^ 64) by (apply Z.pow_le_mono_r; lia).
    assert (Hk1 : 2 ^ (k + 1) = 2 * 2 ^ k) by (rewrite Z.pow_add_r; lia).
    assert (Hs : to_uint64 (Z.shiftl val 1) = 2 * val).
    { rewrite Z.shiftl_mul_pow2 by lia. change (2 ^ 1) with 2.
      rewrite to_uint64_small; [lia|]. unfold U64_MOD.
      change 18446744073709551616 with (2 ^ 64). lia. }
    rewrite Hs.
    replace (k + Z.of_nat (S c)) with ((k + 1) + Z.of_nat c) by lia.
    apply IH; [|lia|lia].
    destruct (vec_at bits (size_add start_bit i)).
    + rewrite lor_double_one by lia. lia.
    + lia.
Qed.

Lemma get_uint_range bits start_bit num_bits :
  0 <= get_uint bits start_bit num_bits < 2 ^ Z.of_N num_bits.
Proof.
  unfold get_uint, out_of_bounds.
  destruct (vec_size bits <? size_add start_bit num_bits)%N; simpl.
  { split; [lia|]. apply Z.pow_pos_nonneg; lia. }
  destruct (64 <? num_bits)%N eqn:E.
  { split; [lia|]. apply Z.pow_pos_nonneg; lia. }
  apply N.ltb_ge in E.
  pose proof (get_uint_loop_bound bits start_bit (N.to_nat num_bits) 0%N 0 0) as H.
  rewrite N_nat_Z in H. simpl in H. apply H; lia.
Qed.

(** In range and without wrap-around, the loop folds [step] over the
    bits it was asked for. *)
Lemma get_uint_loop_fold bits start_bit : ∀ cnt i val k,
  0 <= val < 2 ^ k → 0 <= k → k + Z.of_nat cnt <= 64 →
  (start_bit + i + N.of_nat cnt < SIZE_MOD)%N →
  (N.to_nat (start_bit + i) + cnt <= length bits)%nat →
  get_uint_loop bits start_bit i cnt val
  = fold_left step (take cnt (drop (N.to_nat (start_bit + i)) bits)) val.
Proof.
  induction cnt as [|c IH]; intros i val k Hval Hk Hle Hw Hlen;
    simpl get_uint_loop; [reflexivity|].
  assert (Hp : 2 ^ (k + 1) <= 2 ^ 64) by (apply Z.pow_le_mono_r; lia).
  assert (Hk1 : 2 ^ (k + 1) = 2 * 2 ^ k) by (rewrite Z.pow_add_r; lia).
  assert (Hs : to_uint64 (Z.shiftl val 1) = 2 * val).
  { rewrite Z.shiftl_mul_pow2 by lia. change (2 ^ 1) with 2.
    rewrite to_uint64_small; [lia|]. unfold U64_MOD.
    change 18446744073709551616 with (2 ^ 64). lia. }
  rewrite Hs, size_add_small by lia.
  destruct (lookup_lt_is_Some_2 bits (N.to_nat (start_bit + i))) as [b Hb]; [lia|].
  rewrite (drop_S _ _ _ Hb). simpl take. simpl fold_left.
  unfold vec_at. rewrite nth_lookup, Hb. simpl default.
  replace (S (N.to_nat (start_bit + i))) with (N.to_nat (start_bit + (i + 1))) by lia.
  assert (Hv : (if b then Z.lor (2 * val) 1 else 2 * val) = step val b).
  { unfold step. destruct b; [rewrite lor_double_one by lia|]; lia. }
  rewrite Hv. apply (IH (i + 1)%N _ (k + 1)); try lia.
  unfold step. destruct b; lia.
Qed.

(** [get_uint] is the value of the requested bits read MSB-first. *)
Lemma get_uint_msb bits start_bit num_bits :
  (start_bit + num_bits < SIZE_MOD)%N →
  (start_bit + num_bits <= vec_size bits)%N → (num_bits <= 64)%N →
  get_uint bits start_bit num_bits
  = msb_value (take (N.to_nat num_bits) (drop (N.to_nat start_bit) bits)).
Proof.
  intros Hw Hr Hn. unfold get_uint, out_of_bounds, vec_size in *.
  rewrite size_add_small by assumption.
  destruct (N.ltb_spec (N.of_nat (length bits)) (start_bit + num_bits)); [lia|].
  destruct (N.ltb_spec 64 num_bits); [lia|]. simpl.
  rewrite (get_uint_loop_fold bits start_bit (N.to_nat num_bits) 0%N 0 0);
    try (simpl; lia).
  now rewrite N.add_0_r.
Qed.

End Extractors.

(** ** The constructor *)

Section Constructor.

Lemma bit_test v i : 0 <= i → int_to_bool (Z.land (Z.shiftr v i) 1) = Z.testbit v i.
Proof.
  intros Hi. change 1 with (Z.ones 1).
  rewrite Z.land_ones, Z.shiftr_div_pow2 by lia. change (2 ^ 1) with 2.
  rewrite <- Z.testbit_spec' by lia.
  destruct (Z.testbit v i); reflexivity.
Qed.

Lemma push_bits_six v bits : push_bits v 6 bits
  = bits ++ [Z.testbit v 5; Z.testbit v 4; Z.testbit v 3;
             Z.testbit v 2; Z.testbit v 1; Z.testbit v 0].
Proof.
  cbn [push_bits]. rewrite !bit_test by lia.
  repeat rewrite <- app_assoc. reflexivity.
Qed.

Lemma append_payload_app (p : list ascii) : ∀ bits,
  fold_left (fun acc c => push_bits (armor_value c) 6 acc) p bits
  = bits ++ concat (map char_bits p).
Proof.
  induction p as [|c p IH]; intros bits; cbn [fold_left map concat].
  - now rewrite app_nil_r.
  - rewrite IH, push_bits_six, <- app_assoc. reflexivity.
Qed.

Lemma append_payload_spec (p : string) :
  append_payload p [] = concat (map char_bits (list_ascii_of_string p)).
Proof. unfold append_payload. now rewrite append_payload_app. Qed.

Lemma list_ascii_of_string_app (s t : string) :
  list_ascii_of_string (s +:+ t)
  = list_ascii_of_string s ++ list_ascii_of_string t.
Proof. induction s as [|c s IH]; simpl; [reflexivity|now rewrite IH]. Qed.

Lemma length_list_ascii (s : string) :
  length (list_ascii_of_string s) = String.length s.
Proof. induction s as [|c s IH]; simpl; [reflexivity|now rewrite IH]. Qed.

Lemma length_append_payload (p : string) :
  length (append_payload p []) = (6 * String.length p)%nat.
Proof.
  rewrite append_payload_spec, <- length_list_ascii.
  induction (list_ascii_of_string p) as [|c l IH]; [reflexivity|].
  cbn [map concat]. rewrite length_app, IH. simpl. lia.
Qed.

Lemma iter_pop_back (n : nat) : ∀ bits : list bool,
  Nat.iter n pop_back bits = take (length bits - n) bits.
Proof.
  induction n as [|n IH]; intros bits; simpl.
  - rewrite Nat.sub_0_r. now rewrite firstn_all.
  - rewrite IH. unfold pop_back. rewrite removelast_firstn_len.
    rewrite take_take. f_equal. rewrite length_take. lia.
Qed.

Lemma length_trim_fill k (bits : list bool) :
  (length (trim_fill k bits) <= length bits)%nat.
Proof.
  unfold trim_fill.
  destruct ((0 <? k) && (k <? 6) && (Z.to_N k <=? vec_size bits)%N); [|lia].
  rewrite iter_pop_back, length_take. lia.
Qed.

End Constructor.

(** ** The field decoders *)

Section Decoders.

Implicit Types (m : AISMessage) (j : gmap string json).

(** Below 64 bits both shifts of [get_int] are defined. *)
Lemma get_int_defined (bits : list bool) start_bit num_bits :
  (num_bits < 64)%N → is_Some (get_int bits start_bit num_bits).
Proof.
  intros Hn. unfold get_int.
  destruct (out_of_bounds bits start_bit num_bits); [eauto|].
  destruct (num_bits =? 0)%N; [eauto|].
  unfold shl_ull.
  destruct (N.ltb_spec (num_bits - 1) 64); [|lia].
  destruct (N.ltb_spec num_bits 64); [|lia].
  cbn [mbind option_bind].
  match goal with |- context [if ?c then _ else _] => destruct c end; eauto.
Qed.

(** Both decoders store the 30 bits at offset 8 under ["mmsi"]. *)
Lemma parse_mmsi d m j :
  ∃ j', parse d m j = Some j'
        ∧ j' !! "mmsi" = Some (JUnsigned (get_uint (payload_bits m) 8 30)).
Proof.
  destruct d; unfold parse, parse_123, parse_5, unsigned_field.
  - destruct (get_int_defined (payload_bits m) 42 8) as [rot ->]; [lia|].
    destruct (get_int_defined (payload_bits m) 61 28) as [lon ->]; [lia|].
    destruct (get_int_defined (payload_bits m) 89 27) as [lat ->]; [lia|].
    cbn [mbind option_bind]. eexists. split; [reflexivity|].
    by simplify_map_eq.
  - eexists. split; [reflexivity|].
    destruct (eta_valid _ _ _ _); by simplify_map_eq.
Qed.

(** The decoders have no failure path. *)
Lemma parse_total d m j : is_Some (parse d m j).
Proof. destruct (parse_mmsi d m j) as (j' & -> & _). eauto. Qed.

(** A successful result, named by its components. *)
Lemma success_record (r : option result) :
  fst <$> r = Some true → r = Some (true, default ∅ (snd <$> r)).
Proof.
  destruct r as [[[] j]|]; cbn; intros H; [reflexivity|discriminate..].
Qed.

Lemma out_of_bounds_true (bits : list bool) start_bit num_bits :
  (start_bit + num_bits < SIZE_MOD)%N →
  (vec_size bits < start_bit + num_bits ∨ 64 < num_bits)%N →
  out_of_bounds bits start_bit num_bits = true.
Proof.
  intros Hw H. unfold out_of_bounds. rewrite size_add_small by assumption.
  apply orb_true_iff. destruct H; [left|right]; now apply N.ltb_lt.
Qed.

End Decoders.

Section Defaults.

Implicit Types (bits : list bool) (start_bit num_bits : N).

Lemma get_uint_out_of_range bits start_bit num_bits :
  (start_bit + num_bits < SIZE_MOD)%N →
  (vec_size bits < start_bit + num_bits)%N →
  get_uint bits start_bit num_bits = 0.
Proof.
  intros Hw Hr. unfold get_uint.
  rewrite out_of_bounds_true; [reflexivity|assumption|now left].
Qed.

Lemma get_int_out_of_range bits start_bit num_bits :
  (start_bit + num_bits < SIZE_MOD)%N →
  (vec_size bits < start_bit + num_bits)%N →
  get_int bits start_bit num_bits = Some 0.
Proof.
  intros Hw Hr. unfold get_int.
  rewrite out_of_bounds_true; [reflexivity|assumption|now left].
Qed.

Lemma get_string_out_of_range bits start_bit (num_chars : N) :
  (start_bit + num_chars * 6 < SIZE_MOD)%N →
  (vec_size bits < start_bit + num_chars * 6)%N →
  get_string bits start_bit num_chars = "".
Proof.
  intros Hw Hr. unfold get_string, size_mul.
  rewrite N.mod_small by lia. rewrite size_add_small by assumption.
  apply N.ltb_lt in Hr. now rewrite Hr.
Qed.

(** A field read that exceeds the buffer leaves the default under the
    key of the field. *)
Ltac default_field Hw Hr :=
  cbn [default_value]; lookup_chain;
  first [ rewrite (get_uint_out_of_range _ _ _ Hw Hr); reflexivity
        | rewrite get_string_out_of_range by (cbn; lia); reflexivity ].

Lemma parse_123_default bits (mt : Z) (j : gmap string json) start_bit num_bits :
  (start_bit + num_bits < SIZE_MOD)%N →
  (vec_size bits < start_bit + num_bits)%N →
  ∃ j', parse_123 (mkAISMessage bits mt) j = Some j'
        ∧ ∀ key kind, (key, start_bit, num_bits, kind) ∈ layout Type123 →
                      j' !! key = Some (default_value kind).
Proof.
  intros Hw Hr. unfold parse_123, unsigned_field. cbn [payload_bits message_type].
  destruct (get_int_defined bits 42 8) as [rot Hrot]; [lia|].
  destruct (get_int_defined bits 61 28) as [lon Hlon]; [lia|].
  destruct (get_int_defined bits 89 27) as [lat Hlat]; [lia|].
  rewrite Hrot, Hlon, Hlat. cbn [mbind option_bind].
  eexists. split; [reflexivity|]. intros key kind Hin.
  unfold layout in Hin. rewrite !elem_of_cons, elem_of_nil in Hin.
  repeat (destruct Hin as [Hin|Hin]; [injection Hin as -> -> -> ->|]);
    try contradiction.
  all: try (default_field Hw Hr).
  - rewrite (get_int_out_of_range _ _ _ Hw Hr) in Hrot. injection Hrot as <-.
    cbn [default_value]. lookup_key.
  - rewrite (get_int_out_of_range _ _ _ Hw Hr) in Hlon. injection Hlon as <-.
    cbn [default_value]. lookup_key.
  - rewrite (get_int_out_of_range _ _ _ Hw Hr) in Hlat. injection Hlat as <-.
    cbn [default_value]. lookup_key.
Qed.

Lemma parse_5_default bits (mt : Z) (j : gmap string json) start_bit num_bits :
  (start_bit + num_bits < SIZE_MOD)%N →
  (vec_size bits < start_bit + num_bits)%N →
  ∃ j', parse_5 (mkAISMessage bits mt) j = Some j'
        ∧ ∀ key kind, (key, start_bit, num_bits, kind) ∈ layout Type5 →
                      j' !! key = Some (default_value kind).
Proof.
  intros Hw Hr. unfold parse_5, unsigned_field. cbn [payload_bits message_type].
  assert (Hu : ∀ s n, (n <= 32)%N → to_uint32 (get_uint bits s n) = get_uint bits s n).
  { intros s n Hn. unfold to_uint32, U32_MOD. apply Z.mod_small.
    pose proof (get_uint_range bits s n) as H.
    assert (2 ^ Z.of_N n <= 2 ^ 32) by (apply Z.pow_le_mono_r; lia).
    change 4294967296 with (2 ^ 32). lia. }
  rewrite !Hu by lia.
  eexists. split; [reflexivity|]. intros key kind Hin.
  unfold layout in Hin. rewrite !elem_of_cons, elem_of_nil in Hin.
  destruct (eta_valid _ _ _ _).
  all: repeat (destruct Hin as [Hin|Hin]; [injection Hin as -> -> -> ->|]);
    try contradiction.
  all: default_field Hw Hr.
Qed.

End Defaults.

(** C1 (as the code has it).  An extractor call whose range exceeds the
    buffer, or whose width exceeds 64 bits, is not an error, provided
    [start_bit + num_bits] stays below 2^64: [get_uint] and [get_int] return
    0, [get_string] returns the empty string, and the decoder does not
    abort.  It completes, and when the call that exceeds the buffer is one
    of its field reads, the record holds the default under the key of that
    field: 0, the quotient of 0, or the empty string. *)
Theorem out_of_range_reads_default
        (bits : list bool) (start_bit num_bits : N)
        (d : decoder) (mt : Z) (j : gmap string json) :
  (start_bit + num_bits < SIZE_MOD)%N →
  (vec_size bits < start_bit + num_bits ∨ 64 < num_bits)%N →
  get_uint bits start_bit num_bits = 0
  ∧ get_int bits start_bit num_bits = Some 0
  ∧ (∀ num_chars, (num_chars * 6)%N = num_bits →
      (vec_size bits < start_bit + num_bits)%N →
      get_string bits start_bit num_chars = "")
  ∧ ∃ j', parse d (mkAISMessage bits mt) j = Some j'
          ∧ ((vec_size bits < start_bit + num_bits)%N →
             ∀ key kind, (key, start_bit, num_bits, kind) ∈ layout d →
                         j' !! key = Some (default_value kind)).
Proof.
  intros Hw Hr. pose proof (out_of_bounds_true _ _ _ Hw Hr) as Ho.
  unfold get_uint, get_int. rewrite Ho.
  split; [reflexivity|]. split; [reflexivity|]. split.
  - intros num_chars Hc Hlt. apply get_string_out_of_range; rewrite Hc; assumption.
  - destruct (parse_total d (mkAISMessage bits mt) j) as [j' Hp].
    exists j'. split; [exact Hp|]. intros Hlt key kind Hin.
    destruct d; cbn [parse] in Hp.
    + destruct (parse_123_default bits mt j start_bit num_bits Hw Hlt)
        as (j1 & Hp1 & Hd). rewrite Hp in Hp1. injection Hp1 as <-.
      now apply Hd.
    + destruct (parse_5_default bits mt j start_bit num_bits Hw Hlt)
        as (j1 & Hp1 & Hd). rewrite Hp in Hp1. injection Hp1 as <-.
      now apply Hd.
Qed.

Lemma out_of_range_reads_default_witness :
  get_uint [] 8 30 = 0
  ∧ get_int [] 8 30 = Some 0
  ∧ (∀ num_chars, (num_chars * 6)%N = 30%N → (vec_size [] < 8 + 30)%N →
      get_string [] 8 num_chars = "")
  ∧ ∃ j', parse Type123 (mkAISMessage [] (-1)) ∅ = Some j'
          ∧ ((vec_size [] < 8 + 30)%N →
             ∀ key kind, (key, 8%N, 30%N, kind) ∈ layout Type123 →
                         j' !! key = Some (default_value kind)).
Proof.
  apply (out_of_range_reads_default [] 8 30 Type123 (-1) ∅).
  - reflexivity.
  - left. reflexivity.
Defined.

(** C1 (counterexample).  The one-character payload ["1"] leaves six bits
    in the buffer, so the MMSI read at offset 8 is out of range; the read
    returns 0 and [parse_aivdm] reports success, with the record complete
    and 0 in every field past the sixth bit. *)
Lemma short_payload_is_not_dropped :
  out_of_bounds (payload_bits (AISMessage_ctor "1" 0)) 8 30 = true
  ∧ get_uint (payload_bits (AISMessage_ctor "1" 0)) 8 30 = 0
  ∧ fst <$> parse_aivdm_fields short_fields ∅ = Some true
  ∧ short_record !! "message_type" = Some (JInteger 1)
  ∧ short_record !! "mmsi" = Some (JUnsigned 0)
  ∧ short_record !! "lat" = Some (JFloat 0 600000)
  ∧ short_record !! "radio_status" = Some (JUnsigned 0).
Proof. by_evaluation. Qed.

(** C2 (as the code has it).  Every payload character, valid or not,
    appends exactly six bits: bits 5 to 0 of the value computed for it
    (code minus 48, less 8 more when that exceeds 40).  The constructor and
    the decoder run to completion whatever the characters are. *)
Theorem every_character_appends_six_bits
        (p : string) (c : ascii) (k : Z) (d : decoder) (j : gmap string json) :
  append_payload (p +:+ String c "") []
  = append_payload p []
    ++ [Z.testbit (armor_value c) 5; Z.testbit (armor_value c) 4;
        Z.testbit (armor_value c) 3; Z.testbit (armor_value c) 2;
        Z.testbit (armor_value c) 1; Z.testbit (armor_value c) 0]
  ∧ length (append_payload (p +:+ String c "") []) = (6 * S (String.length p))%nat
  ∧ is_Some (parse d (AISMessage_ctor (p +:+ String c "") k) j).
Proof.
  split; [|split].
  - rewrite !append_payload_spec, list_ascii_of_string_app.
    rewrite map_app, concat_app. cbn [list_ascii_of_string map concat].
    now rewrite app_nil_r.
  - rewrite length_append_payload.
    rewrite <- !length_list_ascii, list_ascii_of_string_app, length_app.
    simpl. lia.
  - apply parse_total.
Qed.

(** C2 (counterexample).  ['X'] (code 88) is not an armor character, yet
    it appends the six bits 101000 to the buffer. *)
Lemma invalid_character_appends_bits :
  decode_6bit_ascii "X" = -1
  ∧ payload_bits (AISMessage_ctor "1X" 0)
    = payload_bits (AISMessage_ctor "1" 0)
      ++ [true; false; true; false; false; false]
  ∧ payload_bits (AISMessage_ctor "1X" 0) ≠ payload_bits (AISMessage_ctor "1" 0)
  ∧ payload_bits (AISMessage_ctor "1X" 0)
    ≠ payload_bits (AISMessage_ctor "1" 0) ++ repeat false 6.
Proof. by_evaluation. Qed.

(** C10.  When fewer than six bits remain after fill-bit trimming, the
    constructor completes with [message_type = -1], which
    [get_message_type] returns and which lies outside 1..63. *)
Theorem short_buffer_message_type (encoded_payload : string) (num_fill_bits : Z) :
  (vec_size (payload_bits (AISMessage_ctor encoded_payload num_fill_bits)) < 6)%N →
  get_message_type (AISMessage_ctor encoded_payload num_fill_bits) = -1
  ∧ ¬ (1 <= get_message_type (AISMessage_ctor encoded_payload num_fill_bits) <= 63).
Proof.
  unfold get_message_type, AISMessage_ctor. cbn [payload_bits message_type].
  intros H. apply N.leb_gt in H. rewrite H. split; lia.
Qed.

Lemma short_buffer_message_type_witness :
  get_message_type (AISMessage_ctor "1" 3) = -1
  ∧ ¬ (1 <= get_message_type (AISMessage_ctor "1" 3) <= 63).
Proof.
  apply (short_buffer_message_type "1" 3). vm_compute. reflexivity.
Defined.

(** ** Trimming of armored strings *)

Section Trim.

Implicit Types (s : list ascii) (c : ascii).

Lemma strip_cons c x s :
  strip c (x :: s)
  = match find_last_not_of s c with
    | Some _ => x :: strip c s
    | None => if Ascii.eqb x c then [] else [x]
    end.
Proof.
  unfold strip, erase. cbn [find_last_not_of].
  destruct (find_last_not_of s c) as [i|]; [reflexivity|].
  destruct (Ascii.eqb x c); reflexivity.
Qed.

Lemma find_last_not_of_none c s :
  find_last_not_of s c = None → s = repeat c (length s).
Proof.
  induction s as [|x s IH]; cbn [find_last_not_of]; [reflexivity|].
  destruct (find_last_not_of s c); [discriminate|].
  destruct (Ascii.eqb_spec x c) as [->|]; [|discriminate].
  intros _. simpl. now rewrite <- IH.
Qed.

Lemma find_last_not_of_some c s i :
  find_last_not_of s c = Some i → strip c s ≠ [].
Proof.
  unfold strip, erase. intros H. rewrite H. destruct s; [discriminate H|].
  rewrite Nat.add_1_r. discriminate.
Qed.

Lemma last_cons_ne {A} (x : A) (l : list A) : l ≠ [] → last (x :: l) = last l.
Proof. destruct l; [congruence|reflexivity]. Qed.

(** A step removes a run of [c] at the end and nothing else. *)
Lemma strip_spec c s :
  ∃ n, s = strip c s ++ repeat c n ∧ ¬ ends_with c (strip c s).
Proof.
  unfold ends_with. induction s as [|x s (n & IHs & IHl)].
  - exists O. split; [reflexivity|]. discriminate.
  - rewrite strip_cons.
    destruct (find_last_not_of s c) as [i|] eqn:E.
    + exists n. split; [simpl; congruence|].
      rewrite last_cons_ne by eauto using find_last_not_of_some. exact IHl.
    + apply find_last_not_of_none in E.
      destruct (Ascii.eqb_spec x c) as [->|Hx].
      * exists (S (length s)). split; [simpl; congruence|]. discriminate.
      * exists (length s). split; [simpl; congruence|].
        simpl. congruence.
Qed.

Lemma last_app_repeat c s n : last (s ++ repeat c (S n)) = Some c.
Proof.
  replace (S n) with (n + 1)%nat by lia.
  rewrite repeat_app, app_assoc. simpl. apply last_snoc.
Qed.

Lemma strip_fixed c s : ¬ ends_with c s → strip c s = s.
Proof.
  intros H. destruct (strip_spec c s) as ([|n] & Hs & _).
  - rewrite app_nil_r in Hs. congruence.
  - exfalso. apply H. unfold ends_with. rewrite Hs. apply last_app_repeat.
Qed.

(** The cut is the only one that leaves no [c] at the end. *)
Lemma repeat_tail_unique c (l1 l2 : list ascii) n m :
  l1 ++ repeat c n = l2 ++ repeat c m →
  ¬ ends_with c l1 → ¬ ends_with c l2 → l1 = l2.
Proof.
  intros H H1 H2. destruct (Nat.lt_trichotomy n m) as [Hlt|[->|Hlt]].
  - replace m with (S (m - n - 1) + n)%nat in H by lia.
    rewrite repeat_app, app_assoc in H. apply app_inv_tail in H.
    exfalso. apply H1. unfold ends_with. rewrite H. apply last_app_repeat.
  - now apply app_inv_tail in H.
  - replace n with (S (n - m - 1) + m)%nat in H by lia.
    rewrite repeat_app, app_assoc in H. apply app_inv_tail in H.
    exfalso. apply H2. unfold ends_with. rewrite <- H. apply last_app_repeat.
Qed.

Lemma strip_app_repeat c l n :
  ¬ ends_with c l → strip c (l ++ repeat c n) = l.
Proof.
  intros H. destruct (strip_spec c (l ++ repeat c n)) as (m & Hs & Hl).
  symmetry. exact (repeat_tail_unique c _ _ _ _ Hs H Hl).
Qed.

Lemma strip_shorter c s :
  ends_with c s → (length (strip c s) < length s)%nat.
Proof.
  intros H. destruct (strip_spec c s) as ([|n] & Hs & Hl).
  - rewrite app_nil_r in Hs. rewrite <- Hs in Hl. contradiction.
  - rewrite Hs at 2. rewrite length_app, repeat_length. lia.
Qed.

Lemma strip_length c s : (length (strip c s) <= length s)%nat.
Proof.
  destruct (strip_spec c s) as (n & Hs & _).
  rewrite Hs at 2. rewrite length_app. lia.
Qed.

(** The code's two steps are two [strip]s: the extra test of the second
    step only fires on a string of spaces, which [strip] empties too. *)
Lemma trim_armored_strip s : trim_armored s = strip " " (strip "@" s).
Proof.
  unfold trim_armored. cbv zeta. fold (strip "@" s).
  generalize (strip "@" s) as t. intros t. unfold strip.
  destruct (find_last_not_of t " ") as [i|] eqn:E; [reflexivity|].
  apply find_last_not_of_none in E.
  destruct t as [|x t]; [reflexivity|].
  simpl in E. injection E as -> _. reflexivity.
Qed.

End Trim.

(** C8 (as the code has it).  Trimming removes the whole run of ['@'] at
    the end and then the whole run of spaces at the end of what is left,
    nothing else: the input is the result followed by spaces and then
    ['@']s, the result with its spaces does not end in ['@'], the result
    does not end in a space, and the result is the only string with these
    properties.  The result may be empty; trimming the result again
    changes nothing exactly when the result does not end in ['@']. *)
Theorem trim_armored_spec (s : list ascii) (n : nat) :
  (∃ k m, s = trim_armored s ++ repeat " "%char k ++ repeat "@"%char m
          ∧ ¬ ends_with "@" (trim_armored s ++ repeat " "%char k))
  ∧ ¬ ends_with " " (trim_armored s)
  ∧ (∀ t k m, s = t ++ repeat " "%char k ++ repeat "@"%char m →
              ¬ ends_with "@" (t ++ repeat " "%char k) →
              ¬ ends_with " " t →
              trim_armored s = t)
  ∧ trim_armored (repeat "@"%char n) = []
  ∧ (trim_armored (trim_armored s) = trim_armored s
     ↔ ¬ ends_with "@" (trim_armored s)).
Proof.
  rewrite !trim_armored_strip.
  destruct (strip_spec "@" s) as (m & Hm & Hlm).
  destruct (strip_spec " " (strip "@" s)) as (k & Hk & Hlk).
  split; [|split; [|split; [|split]]].
  - exists k, m. split.
    + rewrite app_assoc, <- Hk. exact Hm.
    + rewrite <- Hk. exact Hlm.
  - exact Hlk.
  - intros t k' m' Hs Ha Hsp. rewrite Hs, app_assoc.
    rewrite (strip_app_repeat "@" _ m' Ha). now apply strip_app_repeat.
  - destruct (strip_spec "@" (repeat "@"%char n)) as (i & Hi & Hl).
    destruct (strip "@" (repeat "@"%char n)) as [|x t] eqn:E; [reflexivity|].
    exfalso. assert (Hall : Forall (eq "@"%char) ((x :: t) ++ repeat "@"%char i)).
    { rewrite <- Hi. apply Forall_forall. intros y Hy.
      symmetry. eapply repeat_spec. apply list_elem_of_In. exact Hy. }
    apply Forall_app in Hall as [Hall _]. apply Hl. unfold ends_with.
    destruct (last (x :: t)) as [y|] eqn:El.
    + apply last_Some_elem_of in El.
      rewrite Forall_forall in Hall. now rewrite (Hall y El).
    + apply last_None in El. discriminate.
  - set (t := strip " " (strip "@" s)) in *. split.
    + intros Hid Hend. pose proof (strip_shorter "@" t Hend) as H1.
      pose proof (strip_length " " (strip "@" t)) as H2.
      rewrite Hid in H2. lia.
    + intros Hend. rewrite (strip_fixed "@" t Hend). now apply strip_fixed.
Qed.

Lemma trim_armored_spec_witness :
  (∃ k m, ["A"; "@"; " "; "@"]%char
          = trim_armored ["A"; "@"; " "; "@"]%char
            ++ repeat " "%char k ++ repeat "@"%char m
          ∧ ¬ ends_with "@" (trim_armored ["A"; "@"; " "; "@"]%char
                               ++ repeat " "%char k))
  ∧ ¬ ends_with " " (trim_armored ["A"; "@"; " "; "@"]%char)
  ∧ (∀ t k m, ["A"; "@"; " "; "@"]%char
              = t ++ repeat " "%char k ++ repeat "@"%char m →
              ¬ ends_with "@" (t ++ repeat " "%char k) →
              ¬ ends_with " " t →
              trim_armored ["A"; "@"; " "; "@"]%char = t)
  ∧ trim_armored (repeat "@"%char 2) = []
  ∧ (trim_armored (trim_armored ["A"; "@"; " "; "@"]%char)
     = trim_armored ["A"; "@"; " "; "@"]%char
     ↔ ¬ ends_with "@" (trim_armored ["A"; "@"; " "; "@"]%char)).
Proof. exact (trim_armored_spec ["A"; "@"; " "; "@"]%char 2). Defined.

(** C8 (counterexample).  The four groups 1, 0, 32, 0 decode to ["A@ @"];
    [get_string] returns ["A@"], and trimming that once more gives ["A"]. *)
Lemma trim_is_not_idempotent :
  get_string_raw (payload_bits (AISMessage_ctor "10P0" 0)) 0 4
  = ["A"; "@"; " "; "@"]%char
  ∧ get_string (payload_bits (AISMessage_ctor "10P0" 0)) 0 4 = "A@"
  ∧ trim_armored (trim_armored ["A"; "@"; " "; "@"]%char)
    ≠ trim_armored ["A"; "@"; " "; "@"]%char.
Proof. by_evaluation. Qed.

(** ** Decimal strings *)

Section Decimal.

Import Fmt.

Lemma decimal_value_fold (l : list ascii) :
  decimal_value (string_of_list_ascii l) = fold_left dstep l 0.
Proof.
  unfold decimal_value. now rewrite list_ascii_of_string_of_list_ascii.
Qed.

Lemma digit_char_spec d :
  0 <= d <= 9 → is_digit (digit_char d) = true ∧ digit_val (digit_char d) = d.
Proof.
  intros H.
  assert (d = 0 ∨ d = 1 ∨ d = 2 ∨ d = 3 ∨ d = 4 ∨ d = 5 ∨ d = 6 ∨ d = 7
          ∨ d = 8 ∨ d = 9) as Hd by lia.
  repeat (destruct Hd as [->|Hd]; [split; reflexivity|]).
  subst d. split; reflexivity.
Qed.

Lemma dec_digits_app fuel : ∀ v acc,
  dec_digits fuel v acc = dec_digits fuel v [] ++ acc.
Proof.
  induction fuel as [|f IH]; intros v acc; cbn [dec_digits]; [reflexivity|].
  destruct (v <? 10); [reflexivity|].
  rewrite (IH _ (_ :: acc)), (IH _ [_]), <- app_assoc. reflexivity.
Qed.

Lemma dec_digits_unfold f v :
  dec_digits (S f) v []
  = if v <? 10 then [digit_char (v mod 10)]
    else dec_digits f (v / 10) [] ++ [digit_char (v mod 10)].
Proof.
  cbn [dec_digits]. destruct (v <? 10); [reflexivity|]. apply dec_digits_app.
Qed.

(** The digits denote the number, and they are digits. *)
Lemma dec_digits_value fuel : ∀ v,
  0 <= v < 10 ^ Z.of_nat fuel →
  fold_left dstep (dec_digits fuel v []) 0 = v
  ∧ forallb is_digit (dec_digits fuel v []) = true.
Proof.
  induction fuel as [|f IH]; intros v Hv.
  - simpl in Hv. assert (v = 0) as -> by lia. split; reflexivity.
  - rewrite dec_digits_unfold.
    destruct (digit_char_spec (v mod 10)) as [Hd1 Hd2].
    { pose proof (Z.mod_pos_bound v 10). lia. }
    destruct (Z.ltb_spec v 10) as [Hlt|Hge].
    + cbn [fold_left forallb]. unfold dstep. rewrite Hd1, Hd2.
      rewrite Z.mod_small by lia. split; [lia|reflexivity].
    + rewrite Nat2Z.inj_succ, Z.pow_succ_r in Hv by lia.
      destruct (IH (v / 10)) as [IH1 IH2].
      { split; [apply Z.div_pos; lia|].
        apply Z.div_lt_upper_bound; lia. }
      rewrite fold_left_app, forallb_app, IH1, IH2.
      cbn [fold_left forallb]. unfold dstep. rewrite Hd1, Hd2.
      split; [|reflexivity].
      pose proof (Z.div_mod v 10). lia.
Qed.

(** Number of digits. *)
Lemma dec_digits_length_le fuel : ∀ v k,
  0 <= v < 10 ^ Z.of_nat k → (1 <= k)%nat →
  (length (dec_digits fuel v []) <= k)%nat.
Proof.
  induction fuel as [|f IH]; intros v k Hv Hk; [simpl; lia|].
  rewrite dec_digits_unfold.
  destruct (Z.ltb_spec v 10) as [Hlt|Hge]; [simpl; lia|].
  destruct k as [|[|k]]; [lia|simpl in Hv; lia|].
  rewrite length_app. cbn [length].
  rewrite Nat2Z.inj_succ, Z.pow_succ_r in Hv by lia.
  specialize (IH (v / 10) (S k)).
  assert (0 <= v / 10 < 10 ^ Z.of_nat (S k)).
  { split; [apply Z.div_pos; lia|]. apply Z.div_lt_upper_bound; lia. }
  lia.
Qed.

Lemma dec_digits_length_gt fuel : ∀ v k,
  10 ^ Z.of_nat k <= v → (k < fuel)%nat →
  (k < length (dec_digits fuel v []))%nat.
Proof.
  induction fuel as [|f IH]; intros v k Hv Hk; [lia|].
  rewrite dec_digits_unfold.
  destruct k as [|k].
  { destruct (v <? 10); [simpl; lia|]. rewrite length_app. simpl. lia. }
  rewrite Nat2Z.inj_succ, Z.pow_succ_r in Hv by lia.
  assert (0 < 10 ^ Z.of_nat k) by (apply Z.pow_pos_nonneg; lia).
  destruct (Z.ltb_spec v 10) as [Hlt|Hge]; [lia|].
  rewrite length_app. cbn [length].
  specialize (IH (v / 10) k).
  assert (10 ^ Z.of_nat k <= v / 10) by (apply Z.div_le_lower_bound; lia).
  lia.
Qed.

Lemma fold_dstep_zeros n l :
  fold_left dstep (repeat "0"%char n ++ l) 0 = fold_left dstep l 0.
Proof. induction n as [|n IH]; [reflexivity|exact IH]. Qed.

Lemma forallb_repeat_zero n : forallb is_digit (repeat "0"%char n) = true.
Proof. induction n as [|n IH]; [reflexivity|exact IH]. Qed.

Lemma length_string_of_list (l : list ascii) :
  String.length (string_of_list_ascii l) = length l.
Proof. induction l as [|c l IH]; simpl; [reflexivity|now rewrite IH]. Qed.

(** What [zero_pad] produces for a value that fits in 64 bits. *)
Lemma zero_pad_spec width v :
  0 <= v < 10 ^ 20 →
  decimal_value (zero_pad width v) = v
  ∧ all_digits (zero_pad width v) = true
  ∧ String.length (zero_pad width v)
    = Nat.max width (length (to_decimal v)).
Proof.
  intros Hv. unfold zero_pad, all_digits, to_decimal.
  destruct (dec_digits_value 20 v Hv) as [H1 H2].
  rewrite decimal_value_fold, fold_dstep_zeros, H1.
  rewrite list_ascii_of_string_of_list_ascii, forallb_app.
  rewrite forallb_repeat_zero, H2, length_string_of_list.
  rewrite length_app, repeat_length. repeat split. lia.
Qed.

(** Two digits for a value below one hundred. *)
Lemma zero_pad_two v :
  0 <= v < 100 →
  zero_pad 2 v = String (digit_char (v / 10)) (String (digit_char (v mod 10)) "").
Proof.
  intros Hv. unfold zero_pad, to_decimal.
  rewrite dec_digits_unfold.
  destruct (Z.ltb_spec v 10) as [Hlt|Hge].
  - rewrite Z.div_small by lia. reflexivity.
  - rewrite dec_digits_unfold.
    assert (v / 10 < 10) by (apply Z.div_lt_upper_bound; lia).
    destruct (Z.ltb_spec (v / 10) 10); [|lia].
    rewrite (Z.mod_small (v / 10)) by (split; [apply Z.div_pos|]; lia).
    reflexivity.
Qed.

(** [std::stoul] on a string of decimal digits. *)
Lemma read_digits_all (l : list ascii) : ∀ acc n,
  forallb is_digit l = true →
  read_digits l acc n = (fold_left dstep l acc, (n + length l)%nat).
Proof.
  induction l as [|c l IH]; intros acc n H; cbn [read_digits fold_left length].
  - now rewrite Nat.add_0_r.
  - cbn [forallb] in H. apply andb_true_iff in H as [Hc Hl].
    rewrite Hc, IH by assumption. unfold dstep at 2. f_equal. lia.
Qed.

Lemma digit_not_space_or_sign c :
  is_digit c = true →
  isspace c = false ∧ Ascii.eqb c "-" = false ∧ Ascii.eqb c "+" = false
  ∧ 0 <= digit_val c <= 9.
Proof.
  destruct c as [[] [] [] [] [] [] [] []]; vm_compute; intros H;
    try discriminate H; repeat split; discriminate.
Qed.

Lemma fold_dstep_bound (l : list ascii) : ∀ acc,
  forallb is_digit l = true → 0 <= acc →
  acc * 10 ^ Z.of_nat (length l) <= fold_left dstep l acc
  < (acc + 1) * 10 ^ Z.of_nat (length l).
Proof.
  induction l as [|c l IH]; intros acc H Hacc; cbn [fold_left length].
  - simpl. lia.
  - cbn [forallb] in H. apply andb_true_iff in H as [Hc Hl].
    destruct (digit_not_space_or_sign c Hc) as (_ & _ & _ & Hd).
    assert (Ha : dstep acc c = 10 * acc + digit_val c) by reflexivity.
    specialize (IH (dstep acc c) Hl ltac:(lia)).
    rewrite Nat2Z.inj_succ, Z.pow_succ_r by lia.
    assert (0 < 10 ^ Z.of_nat (length l)) by (apply Z.pow_pos_nonneg; lia).
    set (F := fold_left dstep l (dstep acc c)) in *.
    set (P := 10 ^ Z.of_nat (length l)) in *.
    rewrite Ha in IH. nia.
Qed.

Lemma stoul_digits (s : string) :
  (1 <= String.length s <= 19)%nat → all_digits s = true →
  stoul s = Some (decimal_value s)
  ∧ 0 <= decimal_value s < 10 ^ Z.of_nat (String.length s).
Proof.
  unfold all_digits, stoul, read_number, decimal_value.
  rewrite <- length_list_ascii. fold dstep.
  destruct (list_ascii_of_string s) as [|c l] eqn:E; [simpl; lia|].
  intros Hlen Hall.
  pose proof (fold_dstep_bound (c :: l) 0 Hall ltac:(lia)) as Hb.
  cbn [forallb] in Hall. pose proof Hall as Hall'.
  apply andb_true_iff in Hall as [Hc Hl].
  destruct (digit_not_space_or_sign c Hc) as (Hs & Hm & Hp & _).
  cbn [skip_space]. rewrite Hs, Hm, Hp.
  rewrite read_digits_all by assumption. cbn [length Nat.add].
  assert (10 ^ Z.of_nat (length (c :: l)) <= 10 ^ 19).
  { apply Z.pow_le_mono_r; lia. }
  change (10 ^ 19) with 10000000000000000000 in H.
  cbn [length] in *. set (P := 10 ^ Z.of_nat (S (length l))) in *.
  destruct (Z.ltb_spec (fold_left dstep (c :: l) 0) U64_MOD) as [_|Hge].
  - split; [reflexivity|]. lia.
  - unfold U64_MOD in Hge. lia.
Qed.

End Decimal.

(** ** Identity: MMSI strings and MAC addresses *)

Section Identity.

Import Fmt.

Lemma to_uint32_small z : 0 <= z < U32_MOD → to_uint32 z = z.
Proof. intros H. unfold to_uint32. now apply Z.mod_small. Qed.

(** [mmsi_to_mac] on nine decimal digits. *)
Lemma mmsi_to_mac_digits (mmsi : string) :
  String.length mmsi = 9%nat → all_digits mmsi = true →
  mmsi_to_mac mmsi
  = mkMac [2; 65; 73;
           Z.land (Z.shiftr (decimal_value mmsi) 16) 255;
           Z.land (Z.shiftr (decimal_value mmsi) 8) 255;
           Z.land (decimal_value mmsi) 255].
Proof.
  intros Hlen Hall. unfold mmsi_to_mac. rewrite Hlen. cbn [Nat.eqb negb].
  destruct (stoul_digits mmsi) as [-> Hb]; [lia|assumption|].
  rewrite Hlen in Hb. rewrite to_uint32_small; [reflexivity|].
  unfold U32_MOD. change (10 ^ Z.of_nat 9) with 1000000000 in Hb. lia.
Qed.

(** What [parse_aivdm] has done when it reports success. *)
Lemma parse_aivdm_fields_success fields (j j' : gmap string json) :
  parse_aivdm_fields fields j = Some (true, j') →
  ∃ k d j0 j1,
    fill_bits_of fields = Some k
    ∧ parse d (AISMessage_ctor (field fields 5) k) j0 = Some j1
    ∧ j' = <["num_fill_bits" := JInteger k]>
             (<["raw_nmea_payload" := JString (field fields 5)]> j1).
Proof.
  unfold parse_aivdm_fields, create_ais_message. intros H.
  repeat case_match; simplify_eq;
    match goal with
    | H : _ ≫= _ = Some _ |- _ =>
        apply bind_Some in H as (j1 & Hp & Heq); simplify_eq
    end; eauto 10.
Qed.

End Identity.

(** C3 (as the code has it).  When [parse_aivdm] succeeds, the record holds
    the unsigned 30-bit field at payload offset 8 under ["mmsi"] as an
    unsigned number.  [process_ais_json] therefore takes the
    [is_number_unsigned] branch, whose [fmt::format("{:09u}", mmsi_val)]
    throws: no MMSI string is built, whatever the value of the field, and
    the exception leaves [process_ais_json]. *)
Theorem decoded_mmsi_format_error (fields : list string) (j j' : gmap string json) :
  parse_aivdm_fields fields j = Some (true, j') →
  ∃ k,
    fill_bits_of fields = Some k
    ∧ j' !! "mmsi"
      = Some (JUnsigned
                (get_uint (payload_bits (AISMessage_ctor (field fields 5) k)) 8 30))
    ∧ extract_mmsi j' = Uncaught
    ∧ observation_key j' = Uncaught.
Proof.
  intros H.
  destruct (parse_aivdm_fields_success _ _ _ H) as (k & d & j0 & j1 & Hk & Hp & ->).
  destruct (parse_mmsi d (AISMessage_ctor (field fields 5) k) j0)
    as (j1' & Hp' & Hm).
  rewrite Hp in Hp'. injection Hp' as <-.
  exists k. split; [assumption|].
  assert (Hl : <["num_fill_bits" := JInteger k]>
                 (<["raw_nmea_payload" := JString (field fields 5)]> j1) !! "mmsi"
               = Some (JUnsigned
                   (get_uint (payload_bits (AISMessage_ctor (field fields 5) k)) 8 30))).
  { lookup_chain. exact Hm. }
  split; [exact Hl|].
  unfold observation_key, extract_mmsi. rewrite Hl. split; reflexivity.
Qed.

Lemma decoded_mmsi_format_error_witness :
  parse_aivdm_fields sample_fields ∅ = Some (true, sample_record)
  ∧ ∃ k,
      fill_bits_of sample_fields = Some k
      ∧ sample_record !! "mmsi"
        = Some (JUnsigned
                  (get_uint
                     (payload_bits (AISMessage_ctor (field sample_fields 5) k)) 8 30))
      ∧ extract_mmsi sample_record = Uncaught
      ∧ observation_key sample_record = Uncaught.
Proof.
  assert (H : parse_aivdm_fields sample_fields ∅ = Some (true, sample_record)).
  { apply success_record. vm_compute. reflexivity. }
  split; [exact H|].
  apply (decoded_mmsi_format_error sample_fields ∅ sample_record H).
Defined.

(** C4 (as the code has it).  227006760 is 0x0D87D928, so the MAC of
    ["227006760"] is 02:41:49:87:D9:28. *)
Theorem mmsi_to_mac_227006760 :
  mmsi_to_mac "227006760" = mkMac [0x02; 0x41; 0x49; 0x87; 0xD9; 0x28].
Proof. vm_compute. reflexivity. Qed.

(** C4 (counterexample).  The MAC of ["227006760"] is not
    02:41:49:0D:74:A8. *)
Lemma mmsi_to_mac_227006760_is_not_0D74A8 :
  mmsi_to_mac "227006760" ≠ mkMac [0x02; 0x41; 0x49; 0x0D; 0x74; 0xA8].
Proof. vm_compute. discriminate. Qed.

(** C5.  On nine decimal digits of value [v], [mmsi_to_mac] returns the
    bytes 02, 41, 49, (v >> 16) & 0xFF, (v >> 8) & 0xFF, v & 0xFF; equal
    strings give equal addresses, and the first three bytes are 02:41:49. *)
Theorem mmsi_to_mac_nine_digits (mmsi other : string) :
  String.length mmsi = 9%nat → all_digits mmsi = true →
  mmsi_to_mac mmsi
  = mkMac [0x02; 0x41; 0x49;
           Z.land (Z.shiftr (decimal_value mmsi) 16) 0xFF;
           Z.land (Z.shiftr (decimal_value mmsi) 8) 0xFF;
           Z.land (decimal_value mmsi) 0xFF]
  ∧ take 3 (mac_bytes (mmsi_to_mac mmsi)) = [0x02; 0x41; 0x49]
  ∧ (other = mmsi → mmsi_to_mac other = mmsi_to_mac mmsi).
Proof.
  intros Hlen Hall. pose proof (mmsi_to_mac_digits mmsi Hlen Hall) as H.
  split; [exact H|]. split; [rewrite H; reflexivity|].
  intros ->. reflexivity.
Qed.

Lemma mmsi_to_mac_nine_digits_witness :
  mmsi_to_mac "000012345"
  = mkMac [0x02; 0x41; 0x49;
           Z.land (Z.shiftr (decimal_value "000012345") 16) 0xFF;
           Z.land (Z.shiftr (decimal_value "000012345") 8) 0xFF;
           Z.land (decimal_value "000012345") 0xFF]
  ∧ take 3 (mac_bytes (mmsi_to_mac "000012345")) = [0x02; 0x41; 0x49]
  ∧ ("000012345" = "000012345" →
     mmsi_to_mac "000012345" = mmsi_to_mac "000012345").
Proof.
  apply (mmsi_to_mac_nine_digits "000012345" "000012345"); reflexivity.
Defined.

(** ** Estimated time of arrival (type 5) *)

Section Eta.

Import Fmt.

Lemma eta_valid_iff mo dd hh mi :
  0 <= hh → 0 <= mi →
  eta_valid mo dd hh mi = true
  ↔ (1 <= mo <= 12 ∧ 1 <= dd <= 31 ∧ hh <= 23 ∧ mi <= 59).
Proof.
  intros Hh Hm. unfold eta_valid.
  rewrite !andb_true_iff, !Z.leb_le. tauto.
Qed.

Lemma get_uint_uint32 (bits : list bool) start_bit num_bits :
  (num_bits <= 32)%N →
  to_uint32 (get_uint bits start_bit num_bits) = get_uint bits start_bit num_bits.
Proof.
  intros Hn. apply to_uint32_small.
  pose proof (get_uint_range bits start_bit num_bits) as H.
  assert (2 ^ Z.of_N num_bits <= 2 ^ 32) by (apply Z.pow_le_mono_r; lia).
  unfold U32_MOD. change 4294967296 with (2 ^ 32). lia.
Qed.

End Eta.

(** C9.  The type 5 decoder stores the four raw ETA components, and
    stores under ["eta_str"] the text [MM-DD HH:MM UTC], two zero-padded
    digits per component, exactly when the month is in 1..12, the day in
    1..31, the hour at most 23 and the minute at most 59; otherwise it
    stores ["N/A"]. *)
Theorem eta_of_type5 (m : AISMessage) (j : gmap string json) :
  ∃ j', parse_5 m j = Some j'
    ∧ j' !! "eta_month" = Some (JUnsigned (get_uint (payload_bits m) 274 4))
    ∧ j' !! "eta_day" = Some (JUnsigned (get_uint (payload_bits m) 278 5))
    ∧ j' !! "eta_hour" = Some (JUnsigned (get_uint (payload_bits m) 283 5))
    ∧ j' !! "eta_minute" = Some (JUnsigned (get_uint (payload_bits m) 288 6))
    ∧ ((1 <= get_uint (payload_bits m) 274 4 <= 12
        ∧ 1 <= get_uint (payload_bits m) 278 5 <= 31
        ∧ get_uint (payload_bits m) 283 5 <= 23
        ∧ get_uint (payload_bits m) 288 6 <= 59) →
       j' !! "eta_str"
       = Some (JString
                 (two_digits (get_uint (payload_bits m) 274 4) +:+ "-" +:+
                  two_digits (get_uint (payload_bits m) 278 5) +:+ " " +:+
                  two_digits (get_uint (payload_bits m) 283 5) +:+ ":" +:+
                  two_digits (get_uint (payload_bits m) 288 6) +:+ " UTC")))
    ∧ (¬ (1 <= get_uint (payload_bits m) 274 4 <= 12
          ∧ 1 <= get_uint (payload_bits m) 278 5 <= 31
          ∧ get_uint (payload_bits m) 283 5 <= 23
          ∧ get_uint (payload_bits m) 288 6 <= 59) →
       j' !! "eta_str" = Some (JString "N/A")).
Proof.
  unfold parse_5, unsigned_field.
  rewrite !get_uint_uint32 by lia.
  pose proof (get_uint_range (payload_bits m) 274 4) as Hmo.
  pose proof (get_uint_range (payload_bits m) 278 5) as Hdd.
  pose proof (get_uint_range (payload_bits m) 283 5) as Hhh.
  pose proof (get_uint_range (payload_bits m) 288 6) as Hmi.
  change (2 ^ Z.of_N 4) with 16 in Hmo. change (2 ^ Z.of_N 5) with 32 in Hdd, Hhh.
  change (2 ^ Z.of_N 6) with 64 in Hmi.
  set (mo := get_uint (payload_bits m) 274 4) in *.
  set (dd := get_uint (payload_bits m) 278 5) in *.
  set (hh := get_uint (payload_bits m) 283 5) in *.
  set (mi := get_uint (payload_bits m) 288 6) in *.
  pose proof (eta_valid_iff mo dd hh mi ltac:(lia) ltac:(lia)) as Hv.
  eexists. split; [reflexivity|].
  destruct (eta_valid mo dd hh mi).
  - repeat split; try by simplify_map_eq.
    + intros _. unfold format_eta, two_digits.
      rewrite !zero_pad_two by lia. by simplify_map_eq.
    + intros Hn. exfalso. apply Hn. now apply Hv.
  - repeat split; try by simplify_map_eq.
    intros Hy. apply Hv in Hy. discriminate.
Qed.

(** ** Armor round trip *)

Section RoundTrip.

Lemma char_bits_armor b5 b4 b3 b2 b1 b0 :
  char_bits (armor_of_value (msb_value [b5; b4; b3; b2; b1; b0]))
  = [b5; b4; b3; b2; b1; b0].
Proof. destruct b5, b4, b3, b2, b1, b0; reflexivity. Qed.

(** Decoding the armor of a whole number of six-bit groups gives the
    bits back. *)
Lemma armor_encode_bits : ∀ (n : nat) (bs : list bool),
  length bs = (6 * n)%nat →
  concat (map char_bits (armor_encode bs)) = bs.
Proof.
  induction n as [|n IH]; intros bs H.
  - destruct bs; [reflexivity|discriminate H].
  - destruct bs as [|b5 [|b4 [|b3 [|b2 [|b1 [|b0 rest]]]]]];
      try (simpl in H; lia).
    cbn [armor_encode map concat].
    rewrite char_bits_armor, IH by (simpl in H; lia). reflexivity.
Qed.

Lemma ctor_no_fill (p : string) :
  payload_bits (AISMessage_ctor p 0) = append_payload p [].
Proof. reflexivity. Qed.

End RoundTrip.

(** C6 (as the code has it).  For a bit sequence whose length is a multiple
    of 6 and at most 64, the buffer built from its armor with no fill bits
    gives the integer the sequence denotes MSB-first when [get_uint] reads
    it whole. *)
Theorem armor_round_trip (bs : list bool) :
  (length bs mod 6 = 0)%nat → (length bs <= 64)%nat →
  get_uint
    (payload_bits (AISMessage_ctor (string_of_list_ascii (armor_encode bs)) 0))
    0 (N.of_nat (length bs))
  = msb_value bs.
Proof.
  intros Hm Hl. rewrite ctor_no_fill, append_payload_spec.
  rewrite list_ascii_of_string_of_list_ascii.
  rewrite (armor_encode_bits (length bs / 6) bs).
  - rewrite get_uint_msb.
    + rewrite Nat2N.id, drop_0, firstn_all. reflexivity.
    + unfold SIZE_MOD. lia.
    + unfold vec_size. lia.
    + lia.
  - pose proof (Nat.div_mod_eq (length bs) 6). lia.
Qed.

Lemma armor_round_trip_witness :
  get_uint
    (payload_bits
       (AISMessage_ctor
          (string_of_list_ascii
             (armor_encode
                [true; false; true; true; false; false;
                 false; true; true; false; true; false])) 0))
    0 (N.of_nat (length [true; false; true; true; false; false;
                         false; true; true; false; true; false]))
  = msb_value [true; false; true; true; false; false;
                   false; true; true; false; true; false].
Proof.
  apply (armor_round_trip [true; false; true; true; false; false;
                           false; true; true; false; true; false]).
  - reflexivity.
  - vm_compute. lia.
Defined.

(** C6 (counterexample).  Sixty-six one bits armor to eleven ['w'];
    reading all 66 bits back gives 0, because the width exceeds 64. *)
Lemma wide_round_trip_reads_zero :
  (length (repeat true 66) mod 6 = 0)%nat
  ∧ string_of_list_ascii (armor_encode (repeat true 66)) = "wwwwwwwwwww"
  ∧ get_uint (payload_bits (AISMessage_ctor "wwwwwwwwwww" 0)) 0 66 = 0
  ∧ msb_value (repeat true 66) = 2 ^ 66 - 1
  ∧ get_uint (payload_bits (AISMessage_ctor "wwwwwwwwwww" 0)) 0
             (N.of_nat (length (repeat true 66)))
    ≠ msb_value (repeat true 66).
Proof. by_evaluation. Qed.

(** ** Signed extraction *)

Section Signed.

Lemma land_pow2 a k :
  0 <= k → Z.land a (2 ^ k) = if Z.testbit a k then 2 ^ k else 0.
Proof.
  intros Hk. apply Z.bits_inj'. intros i Hi.
  rewrite Z.land_spec, Z.pow2_bits_eqb by lia.
  destruct (Z.eqb_spec k i) as [->|Hne].
  - rewrite andb_true_r. destruct (Z.testbit a i) eqn:E.
    + rewrite Z.pow2_bits_true by lia. reflexivity.
    + now rewrite Z.bits_0.
  - rewrite andb_false_r. destruct (Z.testbit a k).
    + rewrite Z.pow2_bits_false by lia. reflexivity.
    + now rewrite Z.bits_0.
Qed.

Lemma testbit_high k r (b : bool) :
  0 <= k → 0 <= r < 2 ^ k →
  Z.testbit ((if b then 2 ^ k else 0) + r) k = b.
Proof.
  intros Hk Hr. assert (0 < 2 ^ k) by (apply Z.pow_pos_nonneg; lia).
  destruct b.
  - apply Z.testbit_true; [lia|].
    replace (2 ^ k + r) with (r + 1 * 2 ^ k) by lia.
    rewrite Z.div_add, Z.div_small by lia. reflexivity.
  - apply Z.testbit_false; [lia|].
    rewrite Z.add_0_l, Z.div_small by lia. reflexivity.
Qed.

Lemma shl_ull_one (k : N) :
  (k < 64)%N → shl_ull 1 k = Some (2 ^ Z.of_N k).
Proof.
  intros Hk. unfold shl_ull. destruct (N.ltb_spec k 64); [|lia].
  rewrite Z.shiftl_1_l, to_uint64_small; [reflexivity|].
  assert (2 ^ Z.of_N k < 2 ^ 64) by (apply Z.pow_lt_mono_r; lia).
  unfold U64_MOD. change 18446744073709551616 with (2 ^ 64).
  assert (0 < 2 ^ Z.of_N k) by (apply Z.pow_pos_nonneg; lia). lia.
Qed.

(** The first bit of a field weighs [2^(w-1)]; the rest stays below. *)
Lemma get_uint_high_bit (bits : list bool) (start_bit num_bits : N) :
  (start_bit + num_bits < SIZE_MOD)%N →
  (start_bit + num_bits <= vec_size bits)%N →
  (1 <= num_bits <= 64)%N →
  ∃ r, 0 <= r < 2 ^ (Z.of_N num_bits - 1)
       ∧ get_uint bits start_bit num_bits
         = (if vec_at bits start_bit then 2 ^ (Z.of_N num_bits - 1) else 0) + r.
Proof.
  intros Hw Hr Hn. rewrite get_uint_msb by lia. unfold vec_size in Hr.
  destruct (lookup_lt_is_Some_2 bits (N.to_nat start_bit)) as [b Hb]; [lia|].
  rewrite (drop_S _ _ _ Hb). unfold vec_at. rewrite nth_lookup, Hb.
  cbn [default].
  destruct (N.to_nat num_bits) as [|n'] eqn:En; [lia|].
  cbn [take]. rewrite msb_value_fold. cbn [fold_left].
  rewrite fold_step_split.
  assert (Hlen : length (take n' (drop (S (N.to_nat start_bit)) bits)) = n').
  { rewrite length_take, length_drop. lia. }
  pose proof (fold_step_bound (take n' (drop (S (N.to_nat start_bit)) bits))) as Hb'.
  rewrite Hlen in *.
  replace (Z.of_N num_bits - 1) with (Z.of_nat n') by lia.
  exists (fold_left step (take n' (drop (S (N.to_nat start_bit)) bits)) 0).
  split; [exact Hb'|].
  change (step 0 b) with (2 * 0 + (if b then 1 else 0)). unfold id.
  destruct b; lia.
Qed.

Lemma get_int_zero_width (bits : list bool) (start_bit : N) :
  get_int bits start_bit 0 = Some 0.
Proof. unfold get_int. destruct (out_of_bounds bits start_bit 0); reflexivity. Qed.

End Signed.

(** Two's complement reading of a field, to the extent the code defines
    it (the law behind C7).  In range, for a width from 1 to 64: when the first (high) bit of the field is clear,
    [get_int] equals [get_uint]; when it is set and the width is at most
    63, [get_int + 2^w] equals [get_uint]; when it is set and the width is
    64, the shift [1ULL << 64] is evaluated and the result is undefined.
    A width of 0 reads 0. *)
Theorem get_int_twos_complement (bits : list bool) (start_bit num_bits : N) :
  (start_bit + num_bits < SIZE_MOD)%N →
  (start_bit + num_bits <= vec_size bits)%N →
  (1 <= num_bits <= 64)%N →
  (vec_at bits start_bit = false →
   get_int bits start_bit num_bits = Some (get_uint bits start_bit num_bits))
  ∧ (vec_at bits start_bit = true → (num_bits <= 63)%N →
     ∃ v, get_int bits start_bit num_bits = Some v
          ∧ v + 2 ^ Z.of_N num_bits = get_uint bits start_bit num_bits)
  ∧ (vec_at bits start_bit = true → num_bits = 64%N →
     get_int bits start_bit num_bits = None)
  ∧ get_int bits start_bit 0 = Some 0.
Proof.
  intros Hw Hr Hn.
  destruct (get_uint_high_bit bits start_bit num_bits Hw Hr Hn) as (r & Hrr & Hu).
  assert (Hk : Z.of_N (num_bits - 1) = Z.of_N num_bits - 1) by lia.
  assert (Hp : 0 < 2 ^ (Z.of_N num_bits - 1)) by (apply Z.pow_pos_nonneg; lia).
  assert (Hp63 : 2 ^ (Z.of_N num_bits - 1) <= 2 ^ 63)
    by (apply Z.pow_le_mono_r; lia).
  assert (Hob : out_of_bounds bits start_bit num_bits = false).
  { unfold out_of_bounds. rewrite size_add_small by assumption.
    apply orb_false_iff. split; apply N.ltb_ge; lia. }
  assert (Hgi : get_int bits start_bit num_bits
                = if vec_at bits start_bit
                  then p ← shl_ull 1 num_bits;
                       Some (to_int64 (to_uint64
                         (to_uint64 (to_int64 (get_uint bits start_bit num_bits)) - p)))
                  else Some (to_int64 (get_uint bits start_bit num_bits))).
  { unfold get_int. rewrite Hob.
    destruct (N.eqb_spec num_bits 0) as [|_]; [lia|].
    rewrite (shl_ull_one (num_bits - 1)) by lia. cbn [mbind option_bind].
    destruct (N.ltb_spec 0 num_bits) as [_|]; [|lia]. cbn [andb].
    rewrite Hk, land_pow2 by lia. rewrite Hu at 1.
    rewrite testbit_high by lia.
    destruct (vec_at bits start_bit); [|reflexivity].
    unfold int_to_bool. destruct (Z.eqb_spec (2 ^ (Z.of_N num_bits - 1)) 0); [lia|].
    reflexivity. }
  change (2 ^ 63) with 9223372036854775808 in Hp63.
  split; [|split; [|split]].
  - intros Hb. rewrite Hgi, Hb. rewrite Hb in Hu. f_equal.
    unfold to_int64, to_uint64, U64_MOD. rewrite Z.mod_small by lia.
    destruct (Z.ltb_spec (get_uint bits start_bit num_bits) 9223372036854775808);
      [reflexivity|lia].
  - intros Hb Hn63. rewrite Hgi, Hb. rewrite Hb in Hu.
    rewrite shl_ull_one by lia. cbn [mbind option_bind].
    eexists. split; [reflexivity|].
    assert (Hp62 : 2 ^ (Z.of_N num_bits - 1) <= 2 ^ 62)
      by (apply Z.pow_le_mono_r; lia).
    change (2 ^ 62) with 4611686018427387904 in Hp62.
    assert (H2 : 2 ^ Z.of_N num_bits = 2 * 2 ^ (Z.of_N num_bits - 1)).
    { rewrite <- Z.pow_succ_r by lia. f_equal. lia. }
    rewrite H2, Hu. set (P := 2 ^ (Z.of_N num_bits - 1)) in *.
    unfold to_int64, to_uint64, U64_MOD.
    rewrite (Z.mod_small (P + r)) by lia.
    destruct (Z.ltb_spec (P + r) 9223372036854775808); [|lia].
    rewrite (Z.mod_small (P + r)) by lia.
    replace ((P + r - 2 * P) mod 18446744073709551616)
      with (r - P + 18446744073709551616).
    2:{ apply Z.mod_unique with (q := -1); lia. }
    rewrite !(Z.mod_small (r - P + 18446744073709551616)) by lia.
    destruct (Z.ltb_spec (r - P + 18446744073709551616) 9223372036854775808); lia.
  - intros Hb ->. rewrite Hgi, Hb. reflexivity.
  - apply get_int_zero_width.
Qed.

Lemma get_int_twos_complement_witness :
  (vec_at (repeat true 64) 0 = false →
   get_int (repeat true 64) 0 64 = Some (get_uint (repeat true 64) 0 64))
  ∧ (vec_at (repeat true 64) 0 = true → (64 <= 63)%N →
     ∃ v, get_int (repeat true 64) 0 64 = Some v
          ∧ v + 2 ^ Z.of_N 64 = get_uint (repeat true 64) 0 64)
  ∧ (vec_at (repeat true 64) 0 = true → 64%N = 64%N →
     get_int (repeat true 64) 0 64 = None)
  ∧ get_int (repeat true 64) 0 0 = Some 0.
Proof.
  apply (get_int_twos_complement (repeat true 64) 0 64).
  - reflexivity.
  - vm_compute. discriminate.
  - split; vm_compute; discriminate.
Defined.

(** C7 (the defect).  Sixty-four one bits, as left by the payload
    ["wwwwwwwwwww"] with two fill bits: the field is in range and 64 bits
    wide, its high bit is set, and [get_int] has no defined result. *)
Lemma get_int_width_64_undefined :
  payload_bits (AISMessage_ctor "wwwwwwwwwww" 2) = repeat true 64
  ∧ out_of_bounds (repeat true 64) 0 64 = false
  ∧ vec_at (repeat true 64) 0 = true
  ∧ get_uint (repeat true 64) 0 64 = 2 ^ 64 - 1
  ∧ get_int (repeat true 64) 0 64 = None.
Proof. by_evaluation. Qed.

(** * Further properties of the decode pipeline *)

(** ** The armor alphabet *)

(** Case analysis on the integer comparisons of a goal. *)
Ltac split_comparisons :=
  repeat match goal with
         | |- context [?a <? ?b] => destruct (Z.ltb_spec a b)
         | |- context [?a <=? ?b] => destruct (Z.leb_spec a b)
         end;
  cbn [orb andb negb].

Section ArmorCodec.

Lemma code_bound (c : ascii) : 0 <= Z.of_N (N_of_ascii c) < 256.
Proof. pose proof (N_ascii_bounded c). lia. Qed.

Lemma code_of_small (n : Z) :
  0 <= n < 256 → Z.of_N (N_of_ascii (ascii_of_N (Z.to_N n))) = n.
Proof. intros H. rewrite N_ascii_embedding by lia. lia. Qed.

(** [decode_6bit_ascii] as a table on the character code. *)
Lemma decode_6bit_ascii_cases (c : ascii) :
  decode_6bit_ascii c
  = if (48 <=? Z.of_N (N_of_ascii c)) && (Z.of_N (N_of_ascii c) <=? 87)
    then Z.of_N (N_of_ascii c) - 48
    else if (96 <=? Z.of_N (N_of_ascii c)) && (Z.of_N (N_of_ascii c) <=? 119)
         then Z.of_N (N_of_ascii c) - 56
         else -1.
Proof. destruct c as [[] [] [] [] [] [] [] []]; reflexivity. Qed.

(** On a valid armor character the constructor computes the value
    [decode_6bit_ascii] returns. *)
Lemma armor_value_valid (c : ascii) :
  0 <= decode_6bit_ascii c → armor_value c = decode_6bit_ascii c.
Proof.
  rewrite decode_6bit_ascii_cases. unfold armor_value.
  pose proof (code_bound c) as Hc.
  set (n := Z.of_N (N_of_ascii c)) in *. cbv zeta.
  split_comparisons; lia.
Qed.

Lemma decode_6bit_ascii_bounds (c : ascii) : -1 <= decode_6bit_ascii c <= 63.
Proof.
  rewrite decode_6bit_ascii_cases. pose proof (code_bound c) as Hc.
  set (n := Z.of_N (N_of_ascii c)) in *.
  split_comparisons; lia.
Qed.

(** The six bits appended for a character are its value modulo 64. *)
Lemma msb_value_char_bits (c : ascii) :
  msb_value (char_bits c) = armor_value c mod 64.
Proof. destruct c as [[] [] [] [] [] [] [] []]; reflexivity. Qed.

End ArmorCodec.

(** X1.  [decode_6bit_ascii] maps the codes 48..87 to 0..39 and the codes
    96..119 to 40..63, and answers -1 for every other character; its
    result is always between -1 and 63. *)
Theorem decode_6bit_ascii_table (c : ascii) :
  (48 <= Z.of_N (N_of_ascii c) <= 87 →
   decode_6bit_ascii c = Z.of_N (N_of_ascii c) - 48)
  ∧ (96 <= Z.of_N (N_of_ascii c) <= 119 →
     decode_6bit_ascii c = Z.of_N (N_of_ascii c) - 56)
  ∧ (¬ (48 <= Z.of_N (N_of_ascii c) <= 87)
     ∧ ¬ (96 <= Z.of_N (N_of_ascii c) <= 119) →
     decode_6bit_ascii c = -1)
  ∧ -1 <= decode_6bit_ascii c <= 63.
Proof.
  rewrite decode_6bit_ascii_cases. pose proof (code_bound c) as Hc.
  set (n := Z.of_N (N_of_ascii c)) in *.
  split_comparisons; lia.
Qed.

(** X2.  Armor round trip on one group: for a six-bit value [v], the
    armor character of [v] decodes to [v], in [decode_6bit_ascii] and in
    the constructor alike. *)
Theorem decode_armor_of_value (v : Z) :
  0 <= v <= 63 →
  decode_6bit_ascii (armor_of_value v) = v
  ∧ armor_value (armor_of_value v) = v.
Proof.
  intros Hv.
  assert (Hd : decode_6bit_ascii (armor_of_value v) = v).
  { rewrite decode_6bit_ascii_cases. unfold armor_of_value.
    rewrite code_of_small by (destruct (v <? 40); lia).
    split_comparisons; lia. }
  split; [exact Hd|]. rewrite armor_value_valid; [exact Hd|lia].
Qed.

Lemma decode_armor_of_value_witness :
  decode_6bit_ascii (armor_of_value 40) = 40
  ∧ armor_value (armor_of_value 40) = 40.
Proof. apply (decode_armor_of_value 40). lia. Defined.

(** ** The bit buffer *)

Section Buffer.

Lemma trim_fill_length (k : Z) (bits : list bool) :
  length (trim_fill k bits)
  = if (0 <? k) && (k <? 6) && (Z.to_N k <=? vec_size bits)%N
    then (length bits - Z.to_nat k)%nat else length bits.
Proof.
  unfold trim_fill.
  destruct ((0 <? k) && (k <? 6) && (Z.to_N k <=? vec_size bits)%N);
    [|reflexivity].
  rewrite iter_pop_back, length_take. lia.
Qed.

Lemma trim_fill_take (k : Z) (bits : list bool) :
  trim_fill k bits = take (length (trim_fill k bits)) bits.
Proof.
  rewrite trim_fill_length. unfold trim_fill.
  destruct ((0 <? k) && (k <? 6) && (Z.to_N k <=? vec_size bits)%N).
  - apply iter_pop_back.
  - now rewrite firstn_all.
Qed.

Lemma length_char_bits (c : ascii) : length (char_bits c) = 6%nat.
Proof. reflexivity. Qed.

(** Group [i] of the untrimmed buffer holds the bits of character [i]. *)
Lemma concat_char_bits_group (l : list ascii) : ∀ (i : nat) (c : ascii),
  l !! i = Some c →
  take 6 (drop (6 * i) (concat (map char_bits l))) = char_bits c.
Proof.
  induction l as [|c0 l IH]; intros i c Hi; [discriminate|].
  cbn [map concat]. destruct i as [|i].
  - injection Hi as ->. rewrite Nat.mul_0_r, drop_0.
    rewrite take_app_length' by reflexivity. reflexivity.
  - replace (6 * S i)%nat with (length (char_bits c0) + 6 * i)%nat
      by (rewrite length_char_bits; lia).
    rewrite drop_app_add. apply IH. exact Hi.
Qed.

(** Reading group [i] of the constructed buffer, when it survives the
    fill-bit trim. *)
Lemma get_uint_group (p : string) (k : Z) (i : nat) (c : ascii) :
  list_ascii_of_string p !! i = Some c →
  (6 * (i + 1) <= length (payload_bits (AISMessage_ctor p k)))%nat →
  (N.of_nat (6 * i) + 6 < SIZE_MOD)%N →
  get_uint (payload_bits (AISMessage_ctor p k)) (N.of_nat (6 * i)) 6
  = armor_value c mod 64.
Proof.
  intros Hi Hlen Hw. rewrite get_uint_msb; [|exact Hw|unfold vec_size; lia|lia].
  cbn [payload_bits AISMessage_ctor] in *.
  rewrite trim_fill_take. rewrite Nat2N.id.
  change (N.to_nat 6) with 6%nat.
  rewrite take_drop_commute, take_take.
  rewrite Nat.min_l by lia. rewrite <- take_drop_commute.
  rewrite append_payload_spec, (concat_char_bits_group _ i c Hi).
  apply msb_value_char_bits.
Qed.

Lemma armor_value_mod64 (c : ascii) :
  0 <= decode_6bit_ascii c → armor_value c mod 64 = decode_6bit_ascii c.
Proof.
  intros H. rewrite (armor_value_valid c H).
  pose proof (decode_6bit_ascii_bounds c) as Hr.
  apply Z.mod_small. lia.
Qed.

Lemma ctor_length (p : string) (k : Z) :
  length (payload_bits (AISMessage_ctor p k))
  = if (0 <? k) && (k <? 6) && negb (String.length p =? 0)%nat
    then (6 * String.length p - Z.to_nat k)%nat
    else (6 * String.length p)%nat.
Proof.
  cbn [payload_bits AISMessage_ctor]. rewrite trim_fill_length.
  unfold vec_size. rewrite length_append_payload.
  destruct (Z.ltb_spec 0 k), (Z.ltb_spec k 6); cbn [andb]; try reflexivity.
  destruct (String.length p) as [|n]; cbn [Nat.eqb negb].
  - destruct (N.leb_spec (Z.to_N k) (N.of_nat (6 * 0))); [lia|reflexivity].
  - destruct (N.leb_spec (Z.to_N k) (N.of_nat (6 * S n))); [reflexivity|lia].
Qed.

(** The type the constructor stores when six bits are left. *)
Lemma first_character_type (c : ascii) (rest : string) (k : Z) :
  rest ≠ "" ∨ k <= 0 ∨ 6 <= k →
  get_message_type (AISMessage_ctor (String c rest) k) = armor_value c mod 64
  ∧ 0 <= get_message_type (AISMessage_ctor (String c rest) k) <= 63
  ∧ (0 <= decode_6bit_ascii c →
     get_message_type (AISMessage_ctor (String c rest) k) = decode_6bit_ascii c).
Proof.
  intros H.
  assert (Hlen : (6 <= length (payload_bits (AISMessage_ctor (String c rest) k)))%nat).
  { rewrite ctor_length. cbn [String.length Nat.eqb negb].
    destruct (Z.ltb_spec 0 k), (Z.ltb_spec k 6); cbn [andb]; try lia.
    destruct H as [H|H]; [|lia]. destruct rest; [congruence|].
    cbn [String.length]. lia. }
  pose proof (get_uint_group (String c rest) k 0 c eq_refl) as Hg.
  change (N.of_nat (6 * 0)) with 0%N in Hg.
  specialize (Hg ltac:(lia) ltac:(reflexivity)).
  assert (Hmt : get_message_type (AISMessage_ctor (String c rest) k)
                = armor_value c mod 64).
  { unfold get_message_type.
    change (message_type (AISMessage_ctor (String c rest) k))
      with (if (6 <=? vec_size (payload_bits (AISMessage_ctor (String c rest) k)))%N
            then to_int (get_uint (payload_bits (AISMessage_ctor (String c rest) k)) 0 6)
            else -1).
    destruct (N.leb_spec 6 (vec_size (payload_bits (AISMessage_ctor (String c rest) k))))
      as [_|Hlt]; [|unfold vec_size in Hlt; lia].
    rewrite Hg. pose proof (Z.mod_pos_bound (armor_value c) 64 ltac:(lia)).
    unfold to_int, to_uint32, U32_MOD. rewrite Z.mod_small by lia.
    destruct (Z.ltb_spec (armor_value c mod 64) 2147483648); [reflexivity|lia]. }
  rewrite Hmt. pose proof (Z.mod_pos_bound (armor_value c) 64 ltac:(lia)).
  split; [reflexivity|]. split; [lia|]. apply armor_value_mod64.
Qed.

End Buffer.

(** X3.  Size of the bit buffer.  A fill-bit count from 1 to 5 on a
    non-empty payload removes that many bits from the end; any other
    count (zero, negative, six or more) and the empty payload leave the
    six bits per character untouched.  The buffer is always a prefix of
    the untrimmed bits. *)
Theorem buffer_length (p : string) (k : Z) :
  (1 <= k <= 5 → p ≠ "" →
   Z.of_nat (length (payload_bits (AISMessage_ctor p k)))
   = 6 * Z.of_nat (String.length p) - k)
  ∧ (k <= 0 ∨ 6 <= k ∨ p = "" →
     length (payload_bits (AISMessage_ctor p k)) = (6 * String.length p)%nat)
  ∧ payload_bits (AISMessage_ctor p k)
    = take (length (payload_bits (AISMessage_ctor p k))) (append_payload p []).
Proof.
  split; [|split].
  - intros Hk Hp. rewrite ctor_length.
    destruct (Z.ltb_spec 0 k), (Z.ltb_spec k 6); try lia. cbn [andb].
    destruct p as [|c p]; [congruence|]. cbn [String.length Nat.eqb negb]. lia.
  - intros H. rewrite ctor_length.
    destruct (Z.ltb_spec 0 k), (Z.ltb_spec k 6); cbn [andb]; try reflexivity.
    destruct H as [H|[H|H]]; [lia|lia|]. subst p. reflexivity.
  - apply trim_fill_take.
Qed.

(** X4.  Each payload character reads back as a six-bit group: whenever
    group [i] survives the fill-bit trim, [get_uint] at offset [6 i] returns
    the value computed for character [i] modulo 64, which for a valid
    armor character is the value [decode_6bit_ascii] gives it. *)
Theorem group_reads_character (p : string) (k : Z) (i : nat) (c : ascii) :
  list_ascii_of_string p !! i = Some c →
  (6 * (i + 1) <= length (payload_bits (AISMessage_ctor p k)))%nat →
  (N.of_nat (6 * i) + 6 < SIZE_MOD)%N →
  get_uint (payload_bits (AISMessage_ctor p k)) (N.of_nat (6 * i)) 6
  = armor_value c mod 64
  ∧ (0 <= decode_6bit_ascii c →
     get_uint (payload_bits (AISMessage_ctor p k)) (N.of_nat (6 * i)) 6
     = decode_6bit_ascii c).
Proof.
  intros Hi Hlen Hw. pose proof (get_uint_group p k i c Hi Hlen Hw) as H.
  split; [exact H|]. intros Hv. rewrite H. now apply armor_value_mod64.
Qed.

Lemma group_reads_character_witness :
  get_uint (payload_bits (AISMessage_ctor "15w" 2)) (N.of_nat (6 * 1)) 6
  = armor_value "5" mod 64
  ∧ (0 <= decode_6bit_ascii "5" →
     get_uint (payload_bits (AISMessage_ctor "15w" 2)) (N.of_nat (6 * 1)) 6
     = decode_6bit_ascii "5").
Proof.
  apply (group_reads_character "15w" 2 1 "5").
  - reflexivity.
  - vm_compute. lia.
  - reflexivity.
Defined.

(** X5.  The message type stored by the constructor.  When the payload
    has two or more characters, or the fill-bit count is outside 1..5, the
    stored type is the value of the first character modulo 64, hence in
    0..63, and for a valid first character it is the value
    [decode_6bit_ascii] gives it. *)
Theorem message_type_of_first_character (c : ascii) (rest : string) (k : Z) :
  rest ≠ "" ∨ k <= 0 ∨ 6 <= k →
  get_message_type (AISMessage_ctor (String c rest) k) = armor_value c mod 64
  ∧ 0 <= get_message_type (AISMessage_ctor (String c rest) k) <= 63
  ∧ (0 <= decode_6bit_ascii c →
     get_message_type (AISMessage_ctor (String c rest) k) = decode_6bit_ascii c).
Proof. apply first_character_type. Qed.

Lemma message_type_of_first_character_witness :
  get_message_type (AISMessage_ctor (String "5" "5P5") 3) = armor_value "5" mod 64
  ∧ 0 <= get_message_type (AISMessage_ctor (String "5" "5P5") 3) <= 63
  ∧ (0 <= decode_6bit_ascii "5" →
     get_message_type (AISMessage_ctor (String "5" "5P5") 3)
     = decode_6bit_ascii "5").
Proof.
  apply (message_type_of_first_character "5" "5P5" 3).
  left. discriminate.
Defined.

(** ** Unsigned and signed fields *)

Section Fields.

Lemma msb_value_app (l1 l2 : list bool) :
  msb_value (l1 ++ l2) = msb_value l1 * 2 ^ Z.of_nat (length l2) + msb_value l2.
Proof.
  rewrite !msb_value_fold, fold_left_app.
  apply (fold_step_split l2 (fold_left step l1 0)).
Qed.

Lemma out_of_bounds_false (bits : list bool) (start_bit num_bits : N) :
  (start_bit + num_bits < SIZE_MOD)%N →
  out_of_bounds bits start_bit num_bits = false →
  (start_bit + num_bits <= vec_size bits)%N ∧ (num_bits <= 64)%N.
Proof.
  intros Hw H. unfold out_of_bounds in H.
  rewrite size_add_small in H by assumption.
  apply orb_false_iff in H as [H1 H2].
  apply N.ltb_ge in H1, H2. split; assumption.
Qed.

(** A signed field of width 1..63 is always defined and fits its width,
    in range or not. *)
Lemma get_int_fits (bits : list bool) (start_bit num_bits : N) :
  (start_bit + num_bits < SIZE_MOD)%N → (1 <= num_bits <= 63)%N →
  ∃ v, get_int bits start_bit num_bits = Some v
       ∧ - 2 ^ (Z.of_N num_bits - 1) <= v < 2 ^ (Z.of_N num_bits - 1).
Proof.
  intros Hw Hn.
  assert (Hp : 0 < 2 ^ (Z.of_N num_bits - 1)) by (apply Z.pow_pos_nonneg; lia).
  destruct (out_of_bounds bits start_bit num_bits) eqn:Ho.
  - exists 0. unfold get_int. rewrite Ho. split; [reflexivity|lia].
  - destruct (out_of_bounds_false _ _ _ Hw Ho) as [Hr _].
    destruct (get_int_twos_complement bits start_bit num_bits Hw Hr ltac:(lia))
      as (Hclear & Hset & _).
    destruct (get_uint_high_bit bits start_bit num_bits Hw Hr ltac:(lia))
      as (r & Hrr & Hu).
    assert (H2 : 2 ^ Z.of_N num_bits = 2 * 2 ^ (Z.of_N num_bits - 1)).
    { rewrite <- Z.pow_succ_r by lia. f_equal. lia. }
    destruct (vec_at bits start_bit).
    + destruct (Hset eq_refl ltac:(lia)) as (v & Hv & Hsum).
      exists v. split; [exact Hv|]. lia.
    + exists (get_uint bits start_bit num_bits).
      split; [now apply Hclear|]. lia.
Qed.

End Fields.

(** X6.  [get_uint] is boundary-exact.  In range and for a width of at
    most 64, it returns the integer the requested bits denote when read
    most significant bit first, which is below [2^width]; a width of 0
    reads 0 at any position. *)
Theorem get_uint_reads_msb_first (bits : list bool) (start_bit num_bits : N) :
  (start_bit + num_bits < SIZE_MOD)%N →
  (start_bit + num_bits <= vec_size bits)%N → (num_bits <= 64)%N →
  get_uint bits start_bit num_bits
  = msb_value (take (N.to_nat num_bits) (drop (N.to_nat start_bit) bits))
  ∧ 0 <= get_uint bits start_bit num_bits < 2 ^ Z.of_N num_bits
  ∧ get_uint bits start_bit 0 = 0.
Proof.
  intros Hw Hr Hn. split; [now apply get_uint_msb|].
  split; [apply get_uint_range|].
  pose proof (get_uint_range bits start_bit 0) as H.
  change (2 ^ Z.of_N 0) with 1 in H. lia.
Qed.

Lemma get_uint_reads_msb_first_witness :
  get_uint [true; false; true; true; false] 1 3
  = msb_value (take (N.to_nat 3) (drop (N.to_nat 1) [true; false; true; true; false]))
  ∧ 0 <= get_uint [true; false; true; true; false] 1 3 < 2 ^ Z.of_N 3
  ∧ get_uint [true; false; true; true; false] 1 0 = 0.
Proof.
  apply (get_uint_reads_msb_first [true; false; true; true; false] 1 3).
  - reflexivity.
  - vm_compute. discriminate.
  - vm_compute. discriminate.
Defined.

(** X7.  Adjacent fields concatenate: reading [a + b] bits at once gives
    the first [a] bits shifted left by [b], plus the next [b] bits. *)
Theorem get_uint_concat (bits : list bool) (start_bit a b : N) :
  (start_bit + a + b < SIZE_MOD)%N →
  (start_bit + a + b <= vec_size bits)%N → (a + b <= 64)%N →
  get_uint bits start_bit (a + b)
  = get_uint bits start_bit a * 2 ^ Z.of_N b + get_uint bits (start_bit + a) b.
Proof.
  intros Hw Hr Hn. unfold vec_size in Hr.
  rewrite !get_uint_msb by (unfold vec_size; lia).
  replace (N.to_nat (a + b)) with (N.to_nat a + N.to_nat b)%nat by lia.
  rewrite <- (take_drop (N.to_nat a)
                (take (N.to_nat a + N.to_nat b) (drop (N.to_nat start_bit) bits))).
  rewrite take_take, Nat.min_l by lia.
  rewrite msb_value_app. f_equal.
  - f_equal. f_equal. rewrite length_drop, length_take, length_drop. lia.
  - f_equal. rewrite <- take_drop_commute, drop_drop. f_equal. f_equal. lia.
Qed.

Lemma get_uint_concat_witness :
  get_uint [true; false; true; true; false] 0 (2 + 3)
  = get_uint [true; false; true; true; false] 0 2 * 2 ^ Z.of_N 3
    + get_uint [true; false; true; true; false] (0 + 2) 3.
Proof.
  apply (get_uint_concat [true; false; true; true; false] 0 2 3).
  - reflexivity.
  - vm_compute. discriminate.
  - vm_compute. discriminate.
Defined.

(** X8.  A signed field of width [w] from 1 to 63 always has a defined
    value [v] with [-2^(w-1) <= v < 2^(w-1)].  In range, [v] is congruent to
    the unsigned reading modulo [2^w], and it is negative exactly when the
    first bit of the field is set. *)
Theorem get_int_range (bits : list bool) (start_bit num_bits : N) :
  (start_bit + num_bits < SIZE_MOD)%N → (1 <= num_bits <= 63)%N →
  ∃ v, get_int bits start_bit num_bits = Some v
       ∧ - 2 ^ (Z.of_N num_bits - 1) <= v < 2 ^ (Z.of_N num_bits - 1)
       ∧ ((start_bit + num_bits <= vec_size bits)%N →
          v mod 2 ^ Z.of_N num_bits = get_uint bits start_bit num_bits
          ∧ (v < 0 ↔ vec_at bits start_bit = true)).
Proof.
  intros Hw Hn.
  destruct (get_int_fits bits start_bit num_bits Hw Hn) as (v & Hv & Hb).
  exists v. split; [exact Hv|]. split; [exact Hb|]. intros Hr.
  destruct (get_int_twos_complement bits start_bit num_bits Hw Hr ltac:(lia))
    as (Hclear & Hset & _).
  destruct (get_uint_high_bit bits start_bit num_bits Hw Hr ltac:(lia))
    as (r & Hrr & Hu).
  assert (Hp : 0 < 2 ^ (Z.of_N num_bits - 1)) by (apply Z.pow_pos_nonneg; lia).
  assert (H2 : 2 ^ Z.of_N num_bits = 2 * 2 ^ (Z.of_N num_bits - 1)).
  { rewrite <- Z.pow_succ_r by lia. f_equal. lia. }
  destruct (vec_at bits start_bit).
  - destruct (Hset eq_refl ltac:(lia)) as (v' & Hv' & Hsum).
    rewrite Hv in Hv'. injection Hv' as <-. split.
    + symmetry. apply Z.mod_unique with (q := -1); lia.
    + split; [reflexivity|]. intros _. lia.
  - rewrite (Hclear eq_refl) in Hv. injection Hv as <-. split.
    + apply Z.mod_small. lia.
    + split; [lia|discriminate].
Qed.

Lemma get_int_range_witness :
  ∃ v, get_int [true; false; true; true; false] 0 4 = Some v
       ∧ - 2 ^ (Z.of_N 4 - 1) <= v < 2 ^ (Z.of_N 4 - 1)
       ∧ ((0 + 4 <= vec_size [true; false; true; true; false])%N →
          v mod 2 ^ Z.of_N 4 = get_uint [true; false; true; true; false] 0 4
          ∧ (v < 0 ↔ vec_at [true; false; true; true; false] 0 = true)).
Proof.
  apply (get_int_range [true; false; true; true; false] 0 4).
  - reflexivity.
  - split; vm_compute; discriminate.
Defined.

(** ** Armored strings *)

Section Strings.

Implicit Types (bits : list bool) (start_bit num_chars i : N).

(** The character [get_string] appends in round [i]. *)
Lemma get_string_loop_map bits start_bit : ∀ (cnt : nat) i (s : list ascii),
  get_string_loop bits start_bit i cnt s
  = s ++ map (λ j : nat,
                armor_char
                  (to_uint8
                     (get_uint bits (size_add start_bit (size_mul (N.of_nat j) 6)) 6)))
             (seq (N.to_nat i) cnt).
Proof.
  induction cnt as [|c IH]; intros i s; cbn [get_string_loop seq map].
  - now rewrite app_nil_r.
  - rewrite IH, <- app_assoc. cbn [app]. rewrite N2Nat.id.
    replace (N.to_nat (i + 1)) with (S (N.to_nat i)) by lia. reflexivity.
Qed.

Lemma armor_char_printable (v : Z) :
  0 <= v < 64 → 32 <= Z.of_N (N_of_ascii (armor_char v)) <= 95.
Proof.
  intros Hv. unfold armor_char. destruct (Z.ltb_spec v 32).
  - rewrite (Z.mod_small (v + 64)) by lia. rewrite code_of_small by lia. lia.
  - rewrite code_of_small by lia. lia.
Qed.

Lemma group_value_small bits start_bit :
  0 <= to_uint8 (get_uint bits start_bit 6) < 64
  ∧ to_uint8 (get_uint bits start_bit 6) = get_uint bits start_bit 6.
Proof.
  pose proof (get_uint_range bits start_bit 6) as H.
  change (2 ^ Z.of_N 6) with 64 in H. unfold to_uint8.
  rewrite Z.mod_small by lia. split; [lia|reflexivity].
Qed.

Lemma get_string_raw_printable bits start_bit num_chars :
  Forall (λ c, 32 <= Z.of_N (N_of_ascii c) <= 95)
         (get_string_raw bits start_bit num_chars).
Proof.
  unfold get_string_raw. rewrite get_string_loop_map. cbn [app].
  apply Forall_map, Forall_forall. intros j _. cbn.
  apply armor_char_printable, group_value_small.
Qed.

Lemma get_string_raw_length bits start_bit num_chars :
  length (get_string_raw bits start_bit num_chars) = N.to_nat num_chars.
Proof.
  unfold get_string_raw. rewrite get_string_loop_map. cbn [app].
  now rewrite length_map, length_seq.
Qed.

(** Trimming keeps a prefix. *)
Lemma trim_armored_prefix (s : list ascii) :
  ∃ tail, s = trim_armored s ++ tail.
Proof.
  rewrite trim_armored_strip.
  destruct (strip_spec "@" s) as (m & Hm & _).
  destruct (strip_spec " " (strip "@" s)) as (k & Hk & _).
  exists (repeat " "%char k ++ repeat "@"%char m).
  rewrite app_assoc, <- Hk. exact Hm.
Qed.

Lemma trim_armored_no_space (s : list ascii) :
  ¬ ends_with " " (trim_armored s).
Proof.
  rewrite trim_armored_strip.
  destruct (strip_spec " " (strip "@" s)) as (k & _ & Hk). exact Hk.
Qed.

End Strings.

(** X9.  Shape of an extracted string.  For every buffer and every range
    with [start_bit + num_chars * 6] below 2^64, the string [get_string]
    returns has at most [num_chars] characters, each with a code from 32 to
    95 (the sixty-four characters [' '..'?'] and ['@'..'_']), it never ends
    in a space, and it is a prefix of the untrimmed characters. *)
Theorem get_string_shape (bits : list bool) (start_bit num_chars : N) :
  (start_bit + num_chars * 6 < SIZE_MOD)%N →
  (String.length (get_string bits start_bit num_chars) <= N.to_nat num_chars)%nat
  ∧ Forall (λ c, 32 <= Z.of_N (N_of_ascii c) <= 95)
           (list_ascii_of_string (get_string bits start_bit num_chars))
  ∧ ¬ ends_with " " (list_ascii_of_string (get_string bits start_bit num_chars))
  ∧ ∃ tail, get_string_raw bits start_bit num_chars
            = list_ascii_of_string (get_string bits start_bit num_chars) ++ tail.
Proof.
  intros Hw. unfold get_string, size_mul.
  rewrite N.mod_small by lia. rewrite size_add_small by assumption.
  destruct (vec_size bits <? start_bit + num_chars * 6)%N.
  - cbn [String.length list_ascii_of_string].
    split; [lia|]. split; [constructor|]. split; [discriminate|].
    eexists. reflexivity.
  - rewrite length_string_of_list, list_ascii_of_string_of_list_ascii.
    destruct (trim_armored_prefix (get_string_raw bits start_bit num_chars))
      as (tail & Ht).
    pose proof (get_string_raw_length bits start_bit num_chars) as Hl.
    pose proof (get_string_raw_printable bits start_bit num_chars) as Hp.
    rewrite Ht in Hl, Hp. rewrite length_app in Hl.
    apply Forall_app in Hp as [Hp _].
    split; [lia|]. split; [exact Hp|]. split; [apply trim_armored_no_space|].
    exists tail. exact Ht.
Qed.

Lemma get_string_shape_witness :
  (String.length (get_string (payload_bits (AISMessage_ctor "10P0" 0)) 0 4)
   <= N.to_nat 4)%nat
  ∧ Forall (λ c, 32 <= Z.of_N (N_of_ascii c) <= 95)
           (list_ascii_of_string
              (get_string (payload_bits (AISMessage_ctor "10P0" 0)) 0 4))
  ∧ ¬ ends_with " " (list_ascii_of_string
                       (get_string (payload_bits (AISMessage_ctor "10P0" 0)) 0 4))
  ∧ ∃ tail, get_string_raw (payload_bits (AISMessage_ctor "10P0" 0)) 0 4
            = list_ascii_of_string
                (get_string (payload_bits (AISMessage_ctor "10P0" 0)) 0 4) ++ tail.
Proof.
  apply (get_string_shape (payload_bits (AISMessage_ctor "10P0" 0)) 0 4).
  reflexivity.
Defined.

(** X10.  Content of an extracted string before trimming: it has
    [num_chars] characters, and character [i] is the one of the six-bit
    group at offset [start_bit + 6 i]: [v + 64] for a group value [v] below
    32, [v] itself otherwise. *)
Theorem get_string_raw_groups (bits : list bool) (start_bit num_chars : N) (i : nat) :
  (start_bit + num_chars * 6 < SIZE_MOD)%N → (N.of_nat i < num_chars)%N →
  length (get_string_raw bits start_bit num_chars) = N.to_nat num_chars
  ∧ get_string_raw bits start_bit num_chars !! i
    = Some (armor_char (get_uint bits (start_bit + N.of_nat i * 6) 6))
  ∧ Z.of_N (N_of_ascii (armor_char (get_uint bits (start_bit + N.of_nat i * 6) 6)))
    = if get_uint bits (start_bit + N.of_nat i * 6) 6 <? 32
      then get_uint bits (start_bit + N.of_nat i * 6) 6 + 64
      else get_uint bits (start_bit + N.of_nat i * 6) 6.
Proof.
  intros Hw Hi. split; [apply get_string_raw_length|].
  destruct (group_value_small bits (start_bit + N.of_nat i * 6)) as [Hv Hu].
  rewrite Hu in Hv. split.
  - unfold get_string_raw. rewrite get_string_loop_map. cbn [app].
    rewrite list_lookup_fmap, lookup_seq_lt by lia.
    change (N.to_nat 0) with 0%nat.
    cbn [fmap option_fmap option_map Nat.add].
    unfold size_mul. rewrite N.mod_small by (unfold SIZE_MOD in *; lia).
    rewrite size_add_small by lia. now rewrite Hu.
  - unfold armor_char.
    destruct (Z.ltb_spec (get_uint bits (start_bit + N.of_nat i * 6) 6) 32).
    + rewrite Z.mod_small by lia. now rewrite code_of_small by lia.
    + now rewrite code_of_small by lia.
Qed.

Lemma get_string_raw_groups_witness :
  length (get_string_raw (payload_bits (AISMessage_ctor "10P0" 0)) 0 4)
  = N.to_nat 4
  ∧ get_string_raw (payload_bits (AISMessage_ctor "10P0" 0)) 0 4 !! 2%nat
    = Some (armor_char
              (get_uint (payload_bits (AISMessage_ctor "10P0" 0))
                        (0 + N.of_nat 2 * 6) 6))
  ∧ Z.of_N (N_of_ascii
              (armor_char
                 (get_uint (payload_bits (AISMessage_ctor "10P0" 0))
                           (0 + N.of_nat 2 * 6) 6)))
    = if get_uint (payload_bits (AISMessage_ctor "10P0" 0)) (0 + N.of_nat 2 * 6) 6
         <? 32
      then get_uint (payload_bits (AISMessage_ctor "10P0" 0)) (0 + N.of_nat 2 * 6) 6
           + 64
      else get_uint (payload_bits (AISMessage_ctor "10P0" 0)) (0 + N.of_nat 2 * 6) 6.
Proof.
  apply (get_string_raw_groups (payload_bits (AISMessage_ctor "10P0" 0)) 0 4 2);
    reflexivity.
Defined.

(** ** Sentence fields *)

Section SentenceFields.

Implicit Types (fields : list string) (j : gmap string json).

Lemma stoi_fill_digit (c : ascii) :
  ((48 <=? N_of_ascii c) && (N_of_ascii c <=? 53))%N = true →
  Fmt.stoi (String c "") = Some (Z.of_N (N_of_ascii c) - 48).
Proof.
  destruct c as [[] [] [] [] [] [] [] []]; vm_compute; intros H;
    first [reflexivity | discriminate H].
Qed.

(** The fill-bit field never makes [parse_aivdm] fail. *)
Lemma fill_bits_of_cases fields :
  (∃ c, (6 < length fields)%nat ∧ field fields 6 = String c ""
        ∧ 48 <= Z.of_N (N_of_ascii c) <= 53
        ∧ fill_bits_of fields = Some (Z.of_N (N_of_ascii c) - 48))
  ∨ (fill_bits_of fields = Some 0
     ∧ ¬ ∃ c, (6 < length fields)%nat ∧ field fields 6 = String c ""
              ∧ 49 <= Z.of_N (N_of_ascii c) <= 53).
Proof.
  unfold fill_bits_of.
  destruct (Nat.ltb_spec 6 (length fields)) as [Hlen|Hlen]; cbn [andb].
  2:{ right. split; [reflexivity|]. intros (c & H & _). lia. }
  destruct (field fields 6) as [|c [|c' rest]] eqn:E; cbn.
  - right. split; [reflexivity|]. intros (c & _ & H & _). discriminate.
  - destruct ((48 <=? N_of_ascii c) && (N_of_ascii c <=? 53))%N eqn:Hc.
    + left. exists c. rewrite (stoi_fill_digit c Hc).
      apply andb_true_iff in Hc as [H1 H2].
      apply N.leb_le in H1, H2. repeat split; lia.
    + right. split; [reflexivity|]. intros (c0 & _ & H & Hr).
      injection H as <-. apply andb_false_iff in Hc as [Hc|Hc];
        apply N.leb_gt in Hc; lia.
  - right. split; [reflexivity|]. intros (c0 & _ & H & _). discriminate.
Qed.

Lemma fill_bits_of_range fields (k : Z) :
  fill_bits_of fields = Some k → 0 <= k <= 5.
Proof.
  destruct (fill_bits_of_cases fields) as [(c & _ & _ & Hc & ->)|[-> _]];
    intros H; injection H as <-; lia.
Qed.

Lemma list_ascii_cons (s : string) (c : ascii) (l : list ascii) :
  list_ascii_of_string s = c :: l → s = String c (string_of_list_ascii l).
Proof.
  destruct s as [|c0 s]; [discriminate|]. cbn. intros H. injection H as -> <-.
  now rewrite string_of_list_ascii_of_string.
Qed.

End SentenceFields.

(** X11.  The fill-bit field.  [parse_aivdm] always obtains a fill-bit
    count from 0 to 5: the digit when a seventh field is present and is a
    single character ['0'..'5'], and 0 in every other case (field absent,
    empty, longer, or another character); the field never causes a
    rejection. *)
Theorem fill_bits_of_total (fields : list string) :
  ∃ k, fill_bits_of fields = Some k
       ∧ 0 <= k <= 5
       ∧ (k ≠ 0 →
          (6 < length fields)%nat
          ∧ ∃ c, field fields 6 = String c "" ∧ Z.of_N (N_of_ascii c) = 48 + k)
       ∧ (∀ c, (6 < length fields)%nat → field fields 6 = String c "" →
               48 <= Z.of_N (N_of_ascii c) <= 53 →
               k = Z.of_N (N_of_ascii c) - 48).
Proof.
  destruct (fill_bits_of_cases fields) as [(c & Hlen & Hf & Hc & Hk)|[Hk Hn]].
  - exists (Z.of_N (N_of_ascii c) - 48). split; [exact Hk|]. split; [lia|].
    split.
    + intros _. split; [exact Hlen|]. exists c. split; [exact Hf|lia].
    + intros c0 _ Hf0 _. rewrite Hf in Hf0. now injection Hf0 as ->.
  - exists 0. split; [exact Hk|]. split; [lia|]. split; [congruence|].
    intros c Hlen Hf Hc.
    destruct (Z.eq_dec (Z.of_N (N_of_ascii c)) 48) as [->|Hne]; [reflexivity|].
    exfalso. apply Hn. exists c. repeat split; try assumption; lia.
Qed.

(** X12.  Which sentences [parse_aivdm] accepts.  Given the split fields,
    the function always returns, and it returns [true] exactly when there
    are six or seven fields, the talker is [AIVDM] or [AIVDO], the fragment
    count and number are readable integers with the count at most 1 or the
    number equal to 1, and the payload is non-empty with a first
    character that decodes to type 1, 2, 3 or 5.  Nothing else in the
    payload, and nothing in the other fields, can make it fail. *)
Theorem parse_aivdm_fields_accepts (fields : list string) (j : gmap string json) :
  ∃ b j', parse_aivdm_fields fields j = Some (b, j')
    ∧ (b = true ↔
       (6 <= length fields <= 7)%nat
       ∧ (field fields 0 = "AIVDM" ∨ field fields 0 = "AIVDO")
       ∧ (∃ fragment_count fragment_number,
            Fmt.stoi (field fields 1) = Some fragment_count
            ∧ Fmt.stoi (field fields 2) = Some fragment_number
            ∧ (fragment_count <= 1 ∨ fragment_number = 1))
       ∧ (∃ c rest, field fields 5 = String c rest
            ∧ (decode_6bit_ascii c = 1 ∨ decode_6bit_ascii c = 2
               ∨ decode_6bit_ascii c = 3 ∨ decode_6bit_ascii c = 5))).
Proof.
  unfold parse_aivdm_fields.
  destruct (Nat.ltb_spec (length fields) 6) as [Hl6|Hl6]; cbn [orb].
  { eexists false, _. split; [reflexivity|]. split; [discriminate|].
    intros (H & _). lia. }
  destruct (Nat.ltb_spec 7 (length fields)) as [Hl7|Hl7].
  { eexists false, _. split; [reflexivity|]. split; [discriminate|].
    intros (H & _). lia. }
  destruct (String.eqb_spec (field fields 0) "AIVDM") as [Ht1|Ht1],
    (String.eqb_spec (field fields 0) "AIVDO") as [Ht2|Ht2]; cbn [negb andb].
  4:{ eexists false, _. split; [reflexivity|]. split; [discriminate|].
      intros (_ & [H|H] & _); contradiction. }
  all: destruct (Fmt.stoi (field fields 1)) as [fc|] eqn:E1;
    [|eexists false, _; split; [reflexivity|]; split; [discriminate|];
      intros (_ & _ & (fc' & fn' & H & _) & _); discriminate].
  all: destruct (Fmt.stoi (field fields 2)) as [fn|] eqn:E2;
    [|eexists false, _; split; [reflexivity|]; split; [discriminate|];
      intros (_ & _ & (fc' & fn' & _ & H & _) & _); discriminate].
  all: destruct (fill_bits_of_cases fields) as [(c6 & _ & _ & _ & ->)|[-> _]].
  all: destruct (Z.ltb_spec 1 fc) as [Hfc|Hfc], (Z.eqb_spec fn 1) as [Hfn|Hfn];
    cbn [negb andb];
    try (eexists false, _; split; [reflexivity|]; split; [discriminate|];
         intros (_ & _ & (fc' & fn' & H1 & H2 & H3) & _);
         injection H1 as <-; injection H2 as <-; lia).
  all: destruct (list_ascii_of_string (field fields 5)) as [|c0 l] eqn:E5;
    [eexists false, _; split; [reflexivity|]; split; [discriminate|];
     intros (_ & _ & _ & (c' & rest' & Hp5 & _)); rewrite Hp5 in E5; discriminate|].
  all: apply list_ascii_cons in E5.
  all: pose proof (decode_6bit_ascii_bounds c0) as Hrange.
  all: unfold create_ais_message.
  all: destruct (Z.ltb_spec (decode_6bit_ascii c0) 0);
    [eexists false, _; split; [reflexivity|]; split; [discriminate|];
     intros (_ & _ & _ & (c' & rest' & Hp5 & Hty)); rewrite Hp5 in E5;
     injection E5 as <- _; lia|].
  all: destruct (Z.leb_spec (decode_6bit_ascii c0) 0),
         (Z.ltb_spec 63 (decode_6bit_ascii c0)); cbn [orb];
    try (eexists false, _; split; [reflexivity|]; split; [discriminate|];
         intros (_ & _ & _ & (c' & rest' & Hp5 & Hty)); rewrite Hp5 in E5;
         injection E5 as <- _; lia).
  all: destruct (Z.eqb_spec (decode_6bit_ascii c0) 1),
         (Z.eqb_spec (decode_6bit_ascii c0) 2),
         (Z.eqb_spec (decode_6bit_ascii c0) 3),
         (Z.eqb_spec (decode_6bit_ascii c0) 5); cbn [orb]; try lia.
  all: try (eexists false, _; split; [reflexivity|]; split; [discriminate|];
            intros (_ & _ & _ & (c' & rest' & Hp5 & Hty)); rewrite Hp5 in E5;
            injection E5 as <- _; lia).
  all: match goal with
       | |- context [parse ?d ?m ?j0] =>
           destruct (parse_total d m j0) as [j1 ->]
       end; cbn [mbind option_bind].
  all: eexists true, _; split; [reflexivity|]; split; [|reflexivity]; intros _.
  all: split; [lia|]; split; [tauto|]; split;
    [exists fc, fn; repeat split; try reflexivity; lia|].
  all: exists c0, (string_of_list_ascii l); split; [exact E5|lia].
Qed.

(** ** Decoded records *)

(** The range of an unsigned field, as a literal. *)
Ltac field_range b s n :=
  let H := fresh "Hr" in
  pose proof (get_uint_range b s n) as H;
  let x := eval vm_compute in (2 ^ Z.of_N n) in
  change (2 ^ Z.of_N n) with x in H.

Ltac unsigned_field_bound :=
  match goal with
  | |- has_unsigned _ _ _ =>
      eexists; split; [by simplify_map_eq|];
      match goal with
      | |- _ <= get_uint ?b ?s ?n < _ => field_range b s n; lia
      end
  | |- has_quotient _ _ _ _ _ =>
      eexists; split; [by simplify_map_eq|];
      match goal with
      | |- _ <= get_uint ?b ?s ?n < _ => field_range b s n; lia
      end
  end.

Section Records.

Implicit Types (m : AISMessage) (j : gmap string json).

Lemma get_int_literal (bits : list bool) (start_bit num_bits : N) (lo hi : Z) :
  (start_bit + num_bits < SIZE_MOD)%N → (1 <= num_bits <= 63)%N →
  lo = - 2 ^ (Z.of_N num_bits - 1) → hi = 2 ^ (Z.of_N num_bits - 1) →
  ∃ v, get_int bits start_bit num_bits = Some v ∧ lo <= v < hi.
Proof. intros Hw Hn -> ->. now apply get_int_fits. Qed.

Lemma get_string_length (bits : list bool) (start_bit num_chars : N) :
  (String.length (get_string bits start_bit num_chars) <= N.to_nat num_chars)%nat.
Proof.
  unfold get_string.
  destruct (vec_size bits <? size_add start_bit (size_mul num_chars 6))%N.
  - cbn. lia.
  - rewrite length_string_of_list.
    destruct (trim_armored_prefix (get_string_raw bits start_bit num_chars))
      as (tail & Ht).
    pose proof (get_string_raw_length bits start_bit num_chars) as Hl.
    rewrite Ht, length_app in Hl. lia.
Qed.

End Records.

(** X13.  Ranges of a position report.  Whatever the payload, the type
    1/2/3 decoder completes, and every field it stores lies within the
    range of its bit width: the signed fields [rot], [lon] and [lat] within
    8, 28 and 27 bits two's complement, the others within their unsigned
    widths; [message_type] is the type stored by the constructor. *)
Theorem position_report_fields (m : AISMessage) (j : gmap string json) :
  ∃ j', parse_123 m j = Some j'
    ∧ j' !! "message_type" = Some (JInteger (message_type m))
    ∧ has_unsigned j' "repeat_indicator" 4
    ∧ has_unsigned j' "mmsi" (2 ^ 30)
    ∧ has_unsigned j' "nav_status" 16
    ∧ has_integer j' "rot" (-128) 128
    ∧ has_quotient j' "sog" 10 0 1024
    ∧ has_unsigned j' "pos_accuracy" 2
    ∧ has_quotient j' "lon" 600000 (- 2 ^ 27) (2 ^ 27)
    ∧ has_quotient j' "lat" 600000 (- 2 ^ 26) (2 ^ 26)
    ∧ has_quotient j' "cog" 10 0 4096
    ∧ has_unsigned j' "true_heading" 512
    ∧ has_unsigned j' "timestamp" 64
    ∧ has_unsigned j' "maneuver_indicator" 4
    ∧ has_unsigned j' "raim_flag" 2
    ∧ has_unsigned j' "radio_status" (2 ^ 19).
Proof.
  unfold parse_123, unsigned_field.
  destruct (get_int_literal (payload_bits m) 42 8 (-128) 128)
    as (rot & -> & Hrot); [reflexivity|lia|reflexivity..|].
  destruct (get_int_literal (payload_bits m) 61 28 (- 2 ^ 27) (2 ^ 27))
    as (lon & -> & Hlon); [reflexivity|lia|reflexivity..|].
  destruct (get_int_literal (payload_bits m) 89 27 (- 2 ^ 26) (2 ^ 26))
    as (lat & -> & Hlat); [reflexivity|lia|reflexivity..|].
  cbn [mbind option_bind]. eexists. split; [reflexivity|].
  split; [by simplify_map_eq|].
  repeat match goal with |- _ ∧ _ => split end;
    try unsigned_field_bound.
  - exists rot. split; [by simplify_map_eq|exact Hrot].
  - exists lon. split; [by simplify_map_eq|exact Hlon].
  - exists lat. split; [by simplify_map_eq|exact Hlat].
Qed.

(** X14.  Ranges of a static and voyage record.  Whatever the payload, the
    type 5 decoder completes; every number it stores lies within the range
    of its bit width, and the call sign, vessel name and destination have
    at most 7, 20 and 20 characters. *)
Theorem static_voyage_fields (m : AISMessage) (j : gmap string json) :
  ∃ j', parse_5 m j = Some j'
    ∧ j' !! "message_type" = Some (JInteger (message_type m))
    ∧ has_unsigned j' "repeat_indicator" 4
    ∧ has_unsigned j' "mmsi" (2 ^ 30)
    ∧ has_unsigned j' "ais_version" 4
    ∧ has_unsigned j' "imo_number" (2 ^ 30)
    ∧ has_string j' "callsign" 7
    ∧ has_string j' "vessel_name" 20
    ∧ has_unsigned j' "ship_type" 256
    ∧ has_unsigned j' "dim_to_bow" 512
    ∧ has_unsigned j' "dim_to_stern" 512
    ∧ has_unsigned j' "dim_to_port" 64
    ∧ has_unsigned j' "dim_to_starboard" 64
    ∧ has_unsigned j' "epfd_fix_type" 16
    ∧ has_unsigned j' "eta_month" 16
    ∧ has_unsigned j' "eta_day" 32
    ∧ has_unsigned j' "eta_hour" 32
    ∧ has_unsigned j' "eta_minute" 64
    ∧ has_quotient j' "draught" 10 0 256
    ∧ has_string j' "destination" 20
    ∧ has_unsigned j' "dte" 2.
Proof.
  unfold parse_5, unsigned_field.
  rewrite !get_uint_uint32 by lia.
  eexists. split; [reflexivity|].
  destruct (eta_valid _ _ _ _).
  all: split; [by simplify_map_eq|].
  all: repeat match goal with |- _ ∧ _ => split end;
    try unsigned_field_bound.
  all: eexists; (split; [by simplify_map_eq|]);
    first [apply (get_string_length _ _ 7) | apply (get_string_length _ _ 20)].
Qed.

(** ** Accepted and rejected sentences *)

Section Outcome.

Implicit Types (fields : list string) (j : gmap string json).

(** Everything [parse_aivdm] has done when it reports success. *)
Lemma parse_aivdm_fields_inv fields j j' :
  parse_aivdm_fields fields j = Some (true, j') →
  ∃ k fc fn c rest d j1,
    fill_bits_of fields = Some k
    ∧ Fmt.stoi (field fields 1) = Some fc
    ∧ Fmt.stoi (field fields 2) = Some fn
    ∧ field fields 5 = String c rest
    ∧ create_ais_message (decode_6bit_ascii c) (field fields 5) k
      = Some (d, AISMessage_ctor (field fields 5) k)
    ∧ parse d (AISMessage_ctor (field fields 5) k) (envelope_of fields fc fn j)
      = Some j1
    ∧ j' = <["num_fill_bits" := JInteger k]>
             (<["raw_nmea_payload" := JString (field fields 5)]> j1).
Proof.
  unfold parse_aivdm_fields, envelope_of. intros H.
  destruct ((length fields <? 6)%nat || (7 <? length fields)%nat);
    [discriminate|].
  destruct (negb (field fields 0 =? "AIVDM")%string
            && negb (field fields 0 =? "AIVDO")%string); [discriminate|].
  destruct (Fmt.stoi (field fields 1)) as [fc|]; [|discriminate].
  destruct (Fmt.stoi (field fields 2)) as [fn|]; [|discriminate].
  destruct (fill_bits_of fields) as [k|]; [|discriminate].
  destruct ((1 <? fc) && negb (fn =? 1)); [discriminate|].
  destruct (list_ascii_of_string (field fields 5)) as [|c l] eqn:E5;
    [discriminate|].
  apply list_ascii_cons in E5.
  destruct (decode_6bit_ascii c <? 0); [discriminate|].
  destruct ((decode_6bit_ascii c <=? 0) || (63 <? decode_6bit_ascii c));
    [discriminate|].
  destruct (create_ais_message (decode_6bit_ascii c) (field fields 5) k)
    as [[d msg]|] eqn:Ec; [|discriminate].
  assert (msg = AISMessage_ctor (field fields 5) k) as ->.
  { unfold create_ais_message in Ec. repeat case_match; congruence. }
  apply bind_Some in H as (j1 & Hp & Heq). injection Heq as <-.
  exists k, fc, fn, c, (string_of_list_ascii l), d, j1.
  repeat split; try reflexivity; try assumption.
  destruct (negb (field fields 3 =? "")%string); exact Hp.
Qed.

(** The decoders write none of the envelope keys and always store the
    constructor's message type. *)
Lemma parse_keeps_envelope d (m : AISMessage) j j1 (key : string) :
  parse d m j = Some j1 → key ∈ envelope_keys →
  j1 !! key = j !! key
  ∧ j1 !! "message_type" = Some (JInteger (message_type m)).
Proof.
  intros Hp Hk.
  assert (Hcases : key = "nmea_talker_id_type" ∨ key = "fragment_count"
                   ∨ key = "fragment_number" ∨ key = "message_id"
                   ∨ key = "channel").
  { unfold envelope_keys in Hk. rewrite !elem_of_cons, elem_of_nil in Hk. tauto. }
  clear Hk.
  destruct d; cbn [parse] in Hp.
  - unfold parse_123, unsigned_field in Hp.
    destruct (get_int_defined (payload_bits m) 42 8) as [rot Hrot]; [lia|].
    destruct (get_int_defined (payload_bits m) 61 28) as [lon Hlon]; [lia|].
    destruct (get_int_defined (payload_bits m) 89 27) as [lat Hlat]; [lia|].
    rewrite Hrot, Hlon, Hlat in Hp. cbn [mbind option_bind] in Hp.
    injection Hp as <-.
    split; [|clear Hcases; lookup_key].
    destruct Hcases as [ -> | [ -> | [ -> | [ -> | -> ] ] ] ]; lookup_key.
  - unfold parse_5, unsigned_field in Hp. injection Hp as <-.
    destruct (eta_valid _ _ _ _).
    all: split; [|clear Hcases; lookup_key].
    all: destruct Hcases as [ -> | [ -> | [ -> | [ -> | -> ] ] ] ]; lookup_key.
Qed.

End Outcome.

Section OutcomeFacts.

Lemma message_type_short (p : string) (k : Z) :
  (length (payload_bits (AISMessage_ctor p k)) < 6)%nat →
  message_type (AISMessage_ctor p k) = -1.
Proof.
  intros H.
  change (message_type (AISMessage_ctor p k))
    with (if (6 <=? vec_size (payload_bits (AISMessage_ctor p k)))%N
          then to_int (get_uint (payload_bits (AISMessage_ctor p k)) 0 6)
          else -1).
  destruct (N.leb_spec 6 (vec_size (payload_bits (AISMessage_ctor p k))))
    as [Hge|_]; [unfold vec_size in Hge; lia|reflexivity].
Qed.

Lemma not_in_envelope (key : string) :
  key ∉ envelope_keys →
  key ≠ "nmea_talker_id_type" ∧ key ≠ "fragment_count"
  ∧ key ≠ "fragment_number" ∧ key ≠ "message_id" ∧ key ≠ "channel".
Proof.
  unfold envelope_keys. rewrite !not_elem_of_cons. tauto.
Qed.


(** [rfind] finds the last occurrence. *)
Lemma rfind_last (l tail : list ascii) (c : ascii) :
  c ∉ tail → rfind (l ++ c :: tail) c = Some (length l).
Proof.
  intros Hn.
  assert (Ht : rfind tail c = None).
  { induction tail as [|x t IH]; [reflexivity|]. cbn [rfind].
    apply not_elem_of_cons in Hn as [Hx Ht]. rewrite (IH Ht).
    destruct (Ascii.eqb_spec x c); [congruence|reflexivity]. }
  induction l as [|x l IH]; cbn [app rfind length].
  - rewrite Ht, Ascii.eqb_refl. reflexivity.
  - now rewrite IH.
Qed.

(** A valid armor character is the armor of its own value. *)
Lemma armor_of_decode (c : ascii) :
  0 <= decode_6bit_ascii c → armor_of_value (armor_value c mod 64) = c.
Proof.
  destruct c as [[] [] [] [] [] [] [] []]; vm_compute; intros H;
    first [reflexivity | exfalso; apply H; reflexivity].
Qed.

Lemma armor_encode_char_bits (c : ascii) (bs : list bool) :
  armor_encode (char_bits c ++ bs)
  = armor_of_value (armor_value c mod 64) :: armor_encode bs.
Proof.
  unfold char_bits. cbn [app armor_encode]. f_equal. f_equal.
  exact (msb_value_char_bits c).
Qed.

End OutcomeFacts.

(** X15.  What an accepted sentence leaves in the record.  The envelope
    fields are stored as read (talker, fragment count and number,
    channel, the sequence id when it is not empty, the payload and the
    fill-bit count).  The stored [message_type] is the type of the first
    payload character, the one the decoder was chosen by, except for a
    payload of a single character with one to five fill bits, where it
    is -1. *)
Theorem accepted_sentence_record (fields : list string) (j j' : gmap string json) :
  parse_aivdm_fields fields j = Some (true, j') →
  ∃ k fc fn c rest,
    fill_bits_of fields = Some k
    ∧ Fmt.stoi (field fields 1) = Some fc
    ∧ Fmt.stoi (field fields 2) = Some fn
    ∧ field fields 5 = String c rest
    ∧ j' !! "nmea_talker_id_type" = Some (JString (field fields 0))
    ∧ j' !! "fragment_count" = Some (JInteger fc)
    ∧ j' !! "fragment_number" = Some (JInteger fn)
    ∧ j' !! "channel" = Some (JString (field fields 4))
    ∧ (field fields 3 ≠ "" → j' !! "message_id" = Some (JString (field fields 3)))
    ∧ j' !! "raw_nmea_payload" = Some (JString (field fields 5))
    ∧ j' !! "num_fill_bits" = Some (JInteger k)
    ∧ (rest ≠ "" ∨ k = 0 →
       j' !! "message_type" = Some (JInteger (decode_6bit_ascii c)))
    ∧ (rest = "" → 1 <= k → j' !! "message_type" = Some (JInteger (-1))).
Proof.
  intros H.
  destruct (parse_aivdm_fields_inv _ _ _ H)
    as (k & fc & fn & c & rest & d & j1 & Hk & Hfc & Hfn & Hp5 & Hc & Hp & ->).
  exists k, fc, fn, c, rest. rewrite Hp5 in *.
  assert (Hkey : ∀ key, key ∈ envelope_keys →
            (<["num_fill_bits" := JInteger k]>
               (<["raw_nmea_payload" := JString (String c rest)]> j1)) !! key
            = envelope_of fields fc fn j !! key).
  { intros key Hin. destruct (parse_keeps_envelope _ _ _ _ key Hp Hin) as [<- _].
    unfold envelope_keys in Hin. rewrite !elem_of_cons, elem_of_nil in Hin.
    destruct Hin as [ -> | [ -> | [ -> | [ -> | [ -> | [] ] ] ] ] ]; lookup_key. }
  assert (Hmt : (<["num_fill_bits" := JInteger k]>
                   (<["raw_nmea_payload" := JString (String c rest)]> j1))
                  !! "message_type"
                = Some (JInteger (message_type (AISMessage_ctor (String c rest) k)))).
  { destruct (parse_keeps_envelope _ _ _ _ "channel" Hp) as [_ <-].
    - unfold envelope_keys. rewrite !elem_of_cons. tauto.
    - lookup_key. }
  assert (Hdec : 0 <= decode_6bit_ascii c).
  { unfold create_ais_message in Hc.
    destruct (Z.eqb_spec (decode_6bit_ascii c) 1), (Z.eqb_spec (decode_6bit_ascii c) 2),
      (Z.eqb_spec (decode_6bit_ascii c) 3), (Z.eqb_spec (decode_6bit_ascii c) 5);
      cbn [orb] in Hc; try lia; discriminate. }
  pose proof (fill_bits_of_range fields k Hk) as Hrange.
  repeat match goal with |- _ ∧ _ => split end; try assumption; try reflexivity.
  - rewrite Hkey by (unfold envelope_keys; rewrite !elem_of_cons; tauto).
    unfold envelope_of. destruct (negb (field fields 3 =? "")%string);
      unfold id; lookup_key.
  - rewrite Hkey by (unfold envelope_keys; rewrite !elem_of_cons; tauto).
    unfold envelope_of. destruct (negb (field fields 3 =? "")%string);
      unfold id; lookup_key.
  - rewrite Hkey by (unfold envelope_keys; rewrite !elem_of_cons; tauto).
    unfold envelope_of. destruct (negb (field fields 3 =? "")%string);
      unfold id; lookup_key.
  - rewrite Hkey by (unfold envelope_keys; rewrite !elem_of_cons; tauto).
    unfold envelope_of. lookup_key.
  - intros Hne.
    rewrite Hkey by (unfold envelope_keys; rewrite !elem_of_cons; tauto).
    unfold envelope_of.
    destruct (String.eqb_spec (field fields 3) ""); [contradiction|].
    cbn [negb]. lookup_key.
  - lookup_key.
  - lookup_key.
  - intros Hr. rewrite Hmt. do 2 f_equal.
    destruct (first_character_type c rest k) as (_ & _ & Hm).
    + destruct Hr as [Hr|Hr]; [left; exact Hr|right; left; lia].
    + apply Hm. exact Hdec.
  - intros -> Hk1. rewrite Hmt. do 2 f_equal.
    apply message_type_short. rewrite ctor_length.
    destruct (Z.ltb_spec 0 k), (Z.ltb_spec k 6); try lia.
    cbn. lia.
Qed.

Lemma accepted_sentence_record_witness :
  ∃ k fc fn c rest,
    fill_bits_of sample_fields = Some k
    ∧ Fmt.stoi (field sample_fields 1) = Some fc
    ∧ Fmt.stoi (field sample_fields 2) = Some fn
    ∧ field sample_fields 5 = String c rest
    ∧ sample_record !! "nmea_talker_id_type" = Some (JString (field sample_fields 0))
    ∧ sample_record !! "fragment_count" = Some (JInteger fc)
    ∧ sample_record !! "fragment_number" = Some (JInteger fn)
    ∧ sample_record !! "channel" = Some (JString (field sample_fields 4))
    ∧ (field sample_fields 3 ≠ "" →
       sample_record !! "message_id" = Some (JString (field sample_fields 3)))
    ∧ sample_record !! "raw_nmea_payload" = Some (JString (field sample_fields 5))
    ∧ sample_record !! "num_fill_bits" = Some (JInteger k)
    ∧ (rest ≠ "" ∨ k = 0 →
       sample_record !! "message_type" = Some (JInteger (decode_6bit_ascii c)))
    ∧ (rest = "" → 1 <= k →
       sample_record !! "message_type" = Some (JInteger (-1))).
Proof.
  apply (accepted_sentence_record sample_fields ∅ sample_record).
  apply success_record. vm_compute. reflexivity.
Defined.

(** X16.  A rejected sentence leaves no decoded field behind.  When
    [parse_aivdm] returns [false], the output object differs from the input
    object on envelope keys at most: every other key, and so every payload
    field, is as it was. *)
Theorem rejected_sentence_keeps_fields
        (fields : list string) (j j' : gmap string json) (key : string) :
  parse_aivdm_fields fields j = Some (false, j') →
  key ∉ envelope_keys →
  j' !! key = j !! key.
Proof.
  intros H Hkey.
  destruct (not_in_envelope key Hkey) as (N1 & N2 & N3 & N4 & N5).
  unfold parse_aivdm_fields in H.
  assert (Hi : ∀ (key' : string) (v : json) (m : gmap string json),
             key ≠ key' → <[key' := v]> m !! key = m !! key).
  { intros key' v m Hne. apply lookup_insert_ne. congruence. }
  destruct ((length fields <? 6)%nat || (7 <? length fields)%nat);
    [injection H as <-; reflexivity|].
  destruct (negb (field fields 0 =? "AIVDM")%string
            && negb (field fields 0 =? "AIVDO")%string);
    [injection H as <-; now rewrite !Hi|].
  destruct (Fmt.stoi (field fields 1)) as [fc|];
    [|injection H as <-; now rewrite !Hi].
  destruct (Fmt.stoi (field fields 2)) as [fn|];
    [|injection H as <-; now rewrite !Hi].
  destruct (negb (field fields 3 =? "")%string).
  all: destruct (fill_bits_of fields) as [k|];
    [|injection H as <-; now rewrite !Hi].
  all: destruct ((1 <? fc) && negb (fn =? 1));
    [injection H as <-; now rewrite !Hi|].
  all: destruct (list_ascii_of_string (field fields 5)) as [|c l];
    [injection H as <-; now rewrite !Hi|].
  all: destruct (decode_6bit_ascii c <? 0);
    [injection H as <-; now rewrite !Hi|].
  all: destruct ((decode_6bit_ascii c <=? 0) || (63 <? decode_6bit_ascii c));
    [injection H as <-; now rewrite !Hi|].
  all: destruct (create_ais_message (decode_6bit_ascii c) (field fields 5) k)
    as [[d msg]|]; [|injection H as <-; now rewrite !Hi].
  all: apply bind_Some in H as (j1 & _ & Heq); discriminate Heq.
Qed.

Lemma rejected_sentence_keeps_fields_witness :
  default ∅ (snd <$> parse_aivdm_fields
                       ["AIVDM"; "2"; "2"; "3"; "B"; "1@0000000000000"; "2"]
                       {["mmsi" := JUnsigned 7]}) !! "mmsi"
  = ({["mmsi" := JUnsigned 7]} : gmap string json) !! "mmsi".
Proof.
  apply (rejected_sentence_keeps_fields
           ["AIVDM"; "2"; "2"; "3"; "B"; "1@0000000000000"; "2"]
           {["mmsi" := JUnsigned 7]}).
  - vm_compute. reflexivity.
  - unfold envelope_keys. rewrite !not_elem_of_cons.
    repeat split; try discriminate. apply not_elem_of_nil.
Defined.

(** ** Observation keys *)

Section Keys.

Lemma is_zero_mac_zero : is_zero mac_zero = true.
Proof. reflexivity. Qed.

Lemma mmsi_to_mac_length (s : string) :
  is_zero (mmsi_to_mac s) = false → String.length s = 9%nat.
Proof.
  unfold mmsi_to_mac. destruct (Nat.eqb_spec (String.length s) 9) as [H|H];
    [intros _; exact H|]. cbn [negb]. rewrite is_zero_mac_zero. discriminate.
Qed.

Lemma byte_of (v : Z) (k : Z) :
  0 <= k → Z.land (Z.shiftr v k) 255 = (v / 2 ^ k) mod 256.
Proof.
  intros Hk. change 255 with (Z.ones 8).
  rewrite Z.land_ones, Z.shiftr_div_pow2 by lia. reflexivity.
Qed.

(** The three variable bytes are the low 24 bits of the value. *)
Lemma low_bytes (v : Z) :
  v mod 2 ^ 24
  = Z.land (Z.shiftr v 16) 255 * 65536 + Z.land (Z.shiftr v 8) 255 * 256
    + Z.land v 255.
Proof.
  rewrite (byte_of v 16), (byte_of v 8) by lia.
  change (Z.land v 255) with (Z.land v (Z.ones 8)). rewrite Z.land_ones by lia.
  change (2 ^ 24) with 16777216. change (2 ^ 16) with 65536.
  change (2 ^ 8) with 256.
  Z.div_mod_to_equations. lia.
Qed.

Lemma bytes_of_low (v : Z) :
  Z.land (Z.shiftr v 16) 255 = (v mod 2 ^ 24) / 65536
  ∧ Z.land (Z.shiftr v 8) 255 = ((v mod 2 ^ 24) / 256) mod 256
  ∧ Z.land v 255 = (v mod 2 ^ 24) mod 256.
Proof.
  rewrite (byte_of v 16), (byte_of v 8) by lia.
  change (Z.land v 255) with (Z.land v (Z.ones 8)). rewrite Z.land_ones by lia.
  change (2 ^ 24) with 16777216. change (2 ^ 16) with 65536.
  change (2 ^ 8) with 256.
  repeat split; Z.div_mod_to_equations; lia.
Qed.

(** Reading a run of digits: how many were read and what they are
    worth. *)
Lemma read_digits_bound (l : list ascii) : ∀ acc n v n',
  Fmt.read_digits l acc n = (v, n') → 0 <= acc →
  (n <= n' <= n + length l)%nat
  ∧ acc * 10 ^ Z.of_nat (n' - n) <= v < (acc + 1) * 10 ^ Z.of_nat (n' - n).
Proof.
  induction l as [|c l IH]; intros acc n v n' H Hacc; cbn [Fmt.read_digits] in H.
  - injection H as <- <-. rewrite Nat.sub_diag. cbn. lia.
  - destruct (Fmt.is_digit c) eqn:Hc.
    + destruct (digit_not_space_or_sign c Hc) as (_ & _ & _ & Hd).
      destruct (IH _ _ _ _ H ltac:(lia)) as [Hn Hv]. cbn [length].
      split; [lia|].
      replace (n' - n)%nat with (S (n' - S n)) by lia.
      rewrite Nat2Z.inj_succ, Z.pow_succ_r by lia.
      assert (0 < 10 ^ Z.of_nat (n' - S n)) by (apply Z.pow_pos_nonneg; lia).
      nia.
    + injection H as <- <-. rewrite Nat.sub_diag. cbn. lia.
Qed.

End Keys.

(** X17.  Every observation key is well formed.  [process_ais_json] gets
    past the MAC generation only from a record whose ["mmsi"] is a string
    (an unsigned ["mmsi"], as [parse_aivdm] stores it, ends in the format
    call); that string is the MMSI, it has exactly nine decimal digits, and
    the MAC is the non-zero address 02:41:49 followed by the low three
    bytes of the MMSI value. *)
Theorem observation_key_well_formed
        (parsed_ais_fields : gmap string json) (mmsi_str : string) (mac : mac_addr) :
  observation_key parsed_ais_fields = Continue (mmsi_str, mac) →
  parsed_ais_fields !! "mmsi" = Some (JString mmsi_str)
  ∧ String.length mmsi_str = 9%nat
  ∧ all_digits mmsi_str = true
  ∧ mac = mkMac [0x02; 0x41; 0x49;
                 Z.land (Z.shiftr (decimal_value mmsi_str) 16) 0xFF;
                 Z.land (Z.shiftr (decimal_value mmsi_str) 8) 0xFF;
                 Z.land (decimal_value mmsi_str) 0xFF]
  ∧ is_zero mac = false.
Proof.
  unfold observation_key, extract_mmsi. intros H.
  destruct (parsed_ais_fields !! "mmsi") as [[n|z|num den|str]|];
    try discriminate.
  destruct (all_digits str) eqn:Hall;
    [|rewrite orb_true_r in H; discriminate].
  destruct (String.length str =? 9)%nat eqn:Hlen; [|discriminate].
  cbn [negb orb] in H.
  destruct (is_zero (mmsi_to_mac str)) eqn:Hz; [discriminate|].
  injection H as -> <-.
  apply Nat.eqb_eq in Hlen.
  split; [reflexivity|]. split; [exact Hlen|]. split; [exact Hall|].
  split; [apply mmsi_to_mac_digits; assumption|exact Hz].
Qed.

Lemma observation_key_well_formed_witness :
  ({["mmsi" := JString "000012345"]} : gmap string json) !! "mmsi"
  = Some (JString "000012345")
  ∧ String.length "000012345" = 9%nat
  ∧ all_digits "000012345" = true
  ∧ mkMac [2; 65; 73; 0; 48; 57]
    = mkMac [0x02; 0x41; 0x49;
             Z.land (Z.shiftr (decimal_value "000012345") 16) 0xFF;
             Z.land (Z.shiftr (decimal_value "000012345") 8) 0xFF;
             Z.land (decimal_value "000012345") 0xFF]
  ∧ is_zero (mkMac [2; 65; 73; 0; 48; 57]) = false.
Proof.
  apply (observation_key_well_formed {["mmsi" := JString "000012345"]}).
  vm_compute. reflexivity.
Defined.

(** X18.  MAC collisions.  Two nine-digit MMSIs get the same MAC exactly
    when their values agree modulo 2^24: the mapping keeps the low 24
    bits of the 30-bit identity and nothing else. *)
Theorem mmsi_to_mac_collision (mmsi1 mmsi2 : string) :
  String.length mmsi1 = 9%nat → all_digits mmsi1 = true →
  String.length mmsi2 = 9%nat → all_digits mmsi2 = true →
  mmsi_to_mac mmsi1 = mmsi_to_mac mmsi2
  ↔ decimal_value mmsi1 mod 2 ^ 24 = decimal_value mmsi2 mod 2 ^ 24.
Proof.
  intros Hl1 Ha1 Hl2 Ha2.
  rewrite (mmsi_to_mac_digits _ Hl1 Ha1), (mmsi_to_mac_digits _ Hl2 Ha2).
  split.
  - intros H. injection H as H3 H4 H5. rewrite !low_bytes. congruence.
  - intros H.
    destruct (bytes_of_low (decimal_value mmsi1)) as (-> & -> & ->).
    destruct (bytes_of_low (decimal_value mmsi2)) as (-> & -> & ->).
    now rewrite H.
Qed.

Lemma mmsi_to_mac_collision_witness :
  mmsi_to_mac "000000001" = mmsi_to_mac "016777217"
  ↔ decimal_value "000000001" mod 2 ^ 24 = decimal_value "016777217" mod 2 ^ 24.
Proof.
  apply (mmsi_to_mac_collision "000000001" "016777217"); reflexivity.
Defined.

(** X19.  [mmsi_to_mac] checks the length, not the digits.  A string of
    nine characters that starts with a decimal digit is never rejected:
    the MAC is built from the value of the leading run of digits, whatever
    follows it. *)
Theorem mmsi_to_mac_leading_digits (mmsi : string) (c : ascii) (rest : string) :
  String.length mmsi = 9%nat → mmsi = String c rest → Fmt.is_digit c = true →
  is_zero (mmsi_to_mac mmsi) = false
  ∧ 0 <= fst (Fmt.read_digits (list_ascii_of_string mmsi) 0 0) < 10 ^ 9
  ∧ mmsi_to_mac mmsi
    = mkMac [0x02; 0x41; 0x49;
             Z.land (Z.shiftr (fst (Fmt.read_digits (list_ascii_of_string mmsi) 0 0)) 16) 0xFF;
             Z.land (Z.shiftr (fst (Fmt.read_digits (list_ascii_of_string mmsi) 0 0)) 8) 0xFF;
             Z.land (fst (Fmt.read_digits (list_ascii_of_string mmsi) 0 0)) 0xFF].
Proof.
  intros Hlen -> Hc.
  destruct (digit_not_space_or_sign c Hc) as (Hs & Hm & Hp & Hd).
  destruct (Fmt.read_digits (list_ascii_of_string (String c rest)) 0 0)
    as [v n] eqn:E.
  pose proof (read_digits_bound _ _ _ _ _ E ltac:(lia)) as [Hn Hv].
  rewrite length_list_ascii, Hlen in Hn.
  assert (Hn1 : (1 <= n)%nat).
  { cbn [list_ascii_of_string Fmt.read_digits] in E. rewrite Hc in E.
    destruct (read_digits_bound _ _ _ _ _ E ltac:(lia)) as [H _]. lia. }
  assert (Hv9 : 0 <= v < 10 ^ 9).
  { rewrite Nat.sub_0_r in Hv.
    assert (10 ^ Z.of_nat n <= 10 ^ 9) by (apply Z.pow_le_mono_r; lia). lia. }
  change (10 ^ 9) with 1000000000 in *. cbn [fst].
  assert (Hmac : mmsi_to_mac (String c rest)
                 = mkMac [2; 65; 73; Z.land (Z.shiftr v 16) 255;
                          Z.land (Z.shiftr v 8) 255; Z.land v 255]).
  { unfold mmsi_to_mac. rewrite Hlen. cbn [Nat.eqb negb].
    unfold Fmt.stoul, Fmt.read_number.
    cbn [list_ascii_of_string Fmt.skip_space]. rewrite Hs, Hm, Hp.
    cbn [list_ascii_of_string] in E. rewrite E.
    destruct n as [|n]; [lia|].
    destruct (Z.ltb_spec v U64_MOD) as [_|Hge]; [|unfold U64_MOD in Hge; lia].
    rewrite to_uint32_small by (unfold U32_MOD; lia). reflexivity. }
  rewrite Hmac. split; [reflexivity|]. split; [lia|reflexivity].
Qed.

Lemma mmsi_to_mac_leading_digits_witness :
  is_zero (mmsi_to_mac "1234x6789") = false
  ∧ 0 <= fst (Fmt.read_digits (list_ascii_of_string "1234x6789") 0 0) < 10 ^ 9
  ∧ mmsi_to_mac "1234x6789"
    = mkMac [0x02; 0x41; 0x49;
             Z.land (Z.shiftr (fst (Fmt.read_digits (list_ascii_of_string "1234x6789") 0 0)) 16) 0xFF;
             Z.land (Z.shiftr (fst (Fmt.read_digits (list_ascii_of_string "1234x6789") 0 0)) 8) 0xFF;
             Z.land (fst (Fmt.read_digits (list_ascii_of_string "1234x6789") 0 0)) 0xFF].
Proof.
  apply (mmsi_to_mac_leading_digits "1234x6789" "1" "234x6789"); reflexivity.
Defined.

(** ** The sentence envelope, the channel and the payload text *)

(** X20.  What [parse_aivdm] splits.  For a sentence made of ['!'], a
    non-empty content, ['*'] and a tail without ['*'], with a valid
    checksum, the fields are those of the content strictly between the
    leading ['!'] and the last ['*'], and the outcome is that of the field
    decoding; with an empty content the sentence is rejected and the
    output is untouched. *)
Theorem parse_aivdm_envelope
        (kis_checksum_nmea_valid : string → bool)
        (split_string : string → ascii → list string)
        (content tail : list ascii) (j : gmap string json) :
  kis_checksum_nmea_valid
    (string_of_list_ascii ("!"%char :: content ++ "*"%char :: tail)) = true →
  "*"%char ∉ tail →
  (content ≠ [] →
   parse_aivdm kis_checksum_nmea_valid split_string
     (string_of_list_ascii ("!"%char :: content ++ "*"%char :: tail)) j
   = parse_aivdm_fields (split_string (string_of_list_ascii content) ","%char) j)
  ∧ (content = [] →
     parse_aivdm kis_checksum_nmea_valid split_string
       (string_of_list_ascii ("!"%char :: content ++ "*"%char :: tail)) j
     = Some (false, j)).
Proof.
  intros Hck Htail. unfold parse_aivdm. rewrite Hck.
  rewrite list_ascii_of_string_of_list_ascii. cbn [negb Ascii.eqb Bool.eqb].
  change ("!"%char :: content ++ "*"%char :: tail)
    with (("!"%char :: content) ++ "*"%char :: tail).
  rewrite (rfind_last _ _ _ Htail). cbn [length app skipn].
  split.
  - intros Hne. destruct content as [|c content]; [congruence|].
    cbn [length Nat.leb]. replace (S (S (length content)) - 1)%nat
      with (length (c :: content)) by (cbn; lia).
    rewrite drop_0, take_app_length. reflexivity.
  - intros ->. reflexivity.
Qed.

Lemma parse_aivdm_envelope_witness :
  (["A"; "B"]%char ≠ [] →
   parse_aivdm (λ _, true) (λ s _, [s])
     (string_of_list_ascii ("!"%char :: ["A"; "B"]%char ++ "*"%char :: ["0"; "0"]%char)) ∅
   = parse_aivdm_fields ((λ s _, [s]) (string_of_list_ascii ["A"; "B"]%char) ","%char) ∅)
  ∧ (["A"; "B"]%char = [] →
     parse_aivdm (λ _, true) (λ s _, [s])
       (string_of_list_ascii ("!"%char :: ["A"; "B"]%char ++ "*"%char :: ["0"; "0"]%char)) ∅
     = Some (false, ∅)).
Proof.
  apply (parse_aivdm_envelope (λ _, true) (λ s _, [s]) ["A"; "B"]%char ["0"; "0"]%char ∅).
  - reflexivity.
  - rewrite !not_elem_of_cons. repeat split; try discriminate.
    apply not_elem_of_nil.
Defined.



(** X22.  Decoding loses nothing on a valid payload.  When every
    character of the payload is a valid armor character and there are no
    fill bits, re-encoding the bit buffer six bits at a time gives the
    payload back; so two different valid payloads never produce the same
    buffer. *)
Theorem valid_payload_is_recoverable (p : string) :
  Forall (λ c, 0 <= decode_6bit_ascii c) (list_ascii_of_string p) →
  armor_encode (payload_bits (AISMessage_ctor p 0)) = list_ascii_of_string p.
Proof.
  rewrite ctor_no_fill, append_payload_spec.
  induction (list_ascii_of_string p) as [|c l IH]; intros H; [reflexivity|].
  apply Forall_cons in H as [Hc Hl]. cbn [map concat].
  rewrite armor_encode_char_bits, (armor_of_decode c Hc), (IH Hl). reflexivity.
Qed.

Lemma valid_payload_is_recoverable_witness :
  armor_encode (payload_bits (AISMessage_ctor "15w" 0)) = list_ascii_of_string "15w".
Proof.
  apply (valid_payload_is_recoverable "15w").
  repeat constructor; vm_compute; discriminate.
Defined.

(** ** Lock wrappers *)

(** X23.  [kis_lock_guard] is balanced.  A guard that was constructed
    releases on destruction exactly the level its constructor took, so the
    thread holds the mutex as before; a constructor that times out throws
    with the mutex as it was; a guard built with [retain_lock] keeps the
    level it took; an adopting guard releases one level it did not
    take. *)
Theorem kis_lock_guard_balanced (acquired : bool) (m : KisMutex.mutex) :
  (∀ g m', KisMutex.kis_lock_guard_ctor acquired m = KisMutex.Built g m' →
           KisMutex.kis_lock_guard_dtor g m' = Some m)
  ∧ (∀ m', KisMutex.kis_lock_guard_ctor acquired m = KisMutex.Failed m' → m' = m)
  ∧ (∀ g m', KisMutex.kis_lock_guard_retain acquired m = KisMutex.Built g m' →
             KisMutex.kis_lock_guard_dtor g m' = Some (S m))
  ∧ (∀ g m', KisMutex.kis_lock_guard_adopt (S m) = KisMutex.Built g m' →
             KisMutex.kis_lock_guard_dtor g m' = Some m).
Proof.
  unfold KisMutex.kis_lock_guard_ctor, KisMutex.kis_lock_guard_retain,
    KisMutex.kis_lock_guard_adopt, KisMutex.try_lock_for.
  destruct acquired; cbn; repeat split; intros; simplify_eq; reflexivity.
Qed.

(** X24.  The locking constructor of [kis_unique_lock] does not record
    the lock.  After [kis_unique_lock(m, op)] has obtained the mutex, the
    object still has [locked = false]: [unlock] throws, and the destructor
    leaves the mutex held one level deeper than before the object
    existed. *)
Theorem kis_unique_lock_ctor_keeps_mutex
        (acquired : bool) (m m' : KisMutex.mutex) (u : KisMutex.kis_unique_lock) :
  KisMutex.kis_unique_lock_ctor acquired m = KisMutex.Built u m' →
  KisMutex.locked u = false
  ∧ m' = S m
  ∧ KisMutex.unlock u m' = KisMutex.Throw u m'
  ∧ KisMutex.kis_unique_lock_dtor u m' = Some (S m).
Proof.
  unfold KisMutex.kis_unique_lock_ctor, KisMutex.try_lock_for.
  destruct acquired; cbn; intros H; simplify_eq. repeat split.
Qed.

Lemma kis_unique_lock_ctor_keeps_mutex_witness :
  KisMutex.locked (KisMutex.mkUnique false) = false
  ∧ 1%nat = 1%nat
  ∧ KisMutex.unlock (KisMutex.mkUnique false) 1%nat
    = KisMutex.Throw (KisMutex.mkUnique false) 1%nat
  ∧ KisMutex.kis_unique_lock_dtor (KisMutex.mkUnique false) 1%nat = Some 1%nat.
Proof.
  apply (kis_unique_lock_ctor_keeps_mutex true 0%nat 1%nat (KisMutex.mkUnique false)).
  reflexivity.
Defined.

(** X25.  [lock] and [unlock] on a [kis_unique_lock] that is not locked.
    When the mutex is obtained, [lock] followed by [unlock] restores both
    the object and the mutex, and a second [lock] in between throws
    without touching the mutex.  When the wait times out, [lock] throws
    with [locked] already set, so the destructor then unlocks a mutex
    level the object never took: the thread loses a level it held for
    another reason, or, holding none, runs into undefined behaviour. *)
Theorem kis_unique_lock_lock_unlock (m : KisMutex.mutex) (u : KisMutex.kis_unique_lock) :
  KisMutex.locked u = false →
  KisMutex.lock true u m = KisMutex.Return tt (KisMutex.mkUnique true) (S m)
  ∧ KisMutex.unlock (KisMutex.mkUnique true) (S m) = KisMutex.Return tt u m
  ∧ (∀ acquired,
       KisMutex.lock acquired (KisMutex.mkUnique true) (S m)
       = KisMutex.Throw (KisMutex.mkUnique true) (S m))
  ∧ KisMutex.lock false u m = KisMutex.Throw (KisMutex.mkUnique true) m
  ∧ KisMutex.kis_unique_lock_dtor (KisMutex.mkUnique true) m
    = match m with O => None | S held => Some held end.
Proof.
  destruct u as [l]. cbn [KisMutex.locked]. intros ->.
  unfold KisMutex.lock, KisMutex.unlock, KisMutex.kis_unique_lock_dtor. cbn.
  repeat split.
Qed.

Lemma kis_unique_lock_lock_unlock_witness :
  KisMutex.lock true (KisMutex.mkUnique false) 0%nat
  = KisMutex.Return tt (KisMutex.mkUnique true) 1%nat
  ∧ KisMutex.unlock (KisMutex.mkUnique true) 1%nat
    = KisMutex.Return tt (KisMutex.mkUnique false) 0%nat
  ∧ (∀ acquired,
       KisMutex.lock acquired (KisMutex.mkUnique true) 1%nat
       = KisMutex.Throw (KisMutex.mkUnique true) 1%nat)
  ∧ KisMutex.lock false (KisMutex.mkUnique false) 0%nat
    = KisMutex.Throw (KisMutex.mkUnique true) 0%nat
  ∧ KisMutex.kis_unique_lock_dtor (KisMutex.mkUnique true) 0%nat = None.
Proof.
  apply (kis_unique_lock_lock_unlock 0%nat (KisMutex.mkUnique false)). reflexivity.
Defined.
